(** * Medicaid fraud detector: chunked ingestion, accumulators and scoring

    A shallow embedding of [src/process_large_file.py] (class
    [FraudDetector]) and the properties of its streaming aggregation and
    composite risk score.

    Modelling conventions.
    - A pandas DataFrame is a list of row records; a column assignment
      [df[c] = e] or [df.loc[mask, c] = e] is a [map] that updates field
      [c] of the rows selected by [mask].
    - Python floats are modelled by exact rationals ([Q]), so rounding
      is left out; equalities between computed reals are stated with
      [==].  NaN only arises in the source from missing cells, which are
      modelled by [Null].
    - Python dicts are [gmap]s; no property below depends on the
      insertion order of a dict.
    - numpy, scikit-learn and the square root are external: they are
      variables of the section that embeds the scoring pass.  So is
      [DataFrame.sort_values] in the section that embeds the reports,
      of which only that it permutes the rows is assumed.
    - Integer columns are unbounded integers ([Z]): the wrap-around of
      int64 sums is left out.
    - Of the exceptions of the chunk loop only the KeyError of a column
      lookup is modelled; pandas also raises on a header in which two
      names coincide after upper-casing and on a non-finite count.
    - Logging, the counters [chunk_num] and [total_rows] that only
      feed log lines, the text report and the writing of the files are
      not modelled; the two tables written as CSV files are. *)

From Stdlib Require Import QArith Qcanon Qminmax Lqa ZArith List Ascii String Lia
  Permutation.
From stdpp Require Import gmap strings list fin_maps.
Import ListNotations.

Open Scope Q_scope.

(** ** Rationals and sums *)

(** [a < b] as the boolean that a pandas comparison produces. *)
Definition Qltb (a b : Q) : bool := negb (Qle_bool b a).

(** [sum()] of a float column. *)
Definition Qsum (l : list Q) : Q := fold_left Qplus l 0.

(** [sum()] of an integer column. *)
Definition Zsum (l : list Z) : Z := fold_left Z.add l 0%Z.

(** ** Cells, rows and chunks *)

(** A cell of a chunk read by [pd.read_csv]: missing (NaN), a number
    (kept in canonical form, so that equal numbers are equal keys), or
    text that is not a number. *)
Inductive cell : Type :=
| Null
| Num (q : Qc)
| Text (s : string).

#[global] Instance cell_eq_dec : EqDecision cell.
Proof. solve_decision. Defined.

#[global] Instance cell_countable : Countable cell.
Proof.
  refine (inj_countable'
            (fun c => match c with
                      | Null => inl ()
                      | Num q => inr (inl q)
                      | Text s => inr (inr s)
                      end)
            (fun x => match x with
                      | inl _ => Null
                      | inr (inl q) => Num q
                      | inr (inr s) => Text s
                      end) _).
  intros []; reflexivity.
Defined.

(** [Series.notna()] on one cell. *)
Definition notna (c : cell) : bool :=
  match c with Null => false | _ => true end.

(** Elementwise [==] of pandas: NaN is equal to nothing, itself included. *)
Definition cell_eqb (a b : cell) : bool :=
  match a, b with
  | Null, _ | _, Null => false
  | _, _ => bool_decide (a = b)
  end.

(** [Series.unique()]: the distinct values in order of first appearance
    (all NaN count as one value). *)
Fixpoint unique (l : list cell) : list cell :=
  match l with
  | [] => []
  | x :: l' => x :: List.filter (fun y => negb (bool_decide (y = x))) (unique l')
  end.

(** [nunique()]: the number of distinct values, NaN excluded. *)
Definition nunique (l : list cell) : Z :=
  Z.of_nat (length (unique (List.filter notna l))).

(** A chunk as [pd.read_csv] yields it: the header and the data rows,
    each row a list of cells in header order. *)
Record RawChunk : Type := {
  columns : list string;
  records : list (list cell)
}.

(** A chunk row after the type coercions of [process_file]. *)
Record CleanRow : Type := {
  c_billing_npi : cell;
  c_servicing_npi : cell;
  c_procedure_code : cell;
  c_claim_month : cell;
  c_beneficiaries : Z;
  c_claims : Z;
  c_paid : Q
}.

(** A buffered transaction: a valid row with its two derived metrics. *)
Record Row : Type := {
  billing_npi : cell;
  servicing_npi : cell;
  procedure_code : cell;
  claim_month : cell;
  beneficiaries : Z;
  claims : Z;
  paid : Q;
  cost_per_claim : Q;
  claims_per_beneficiary : Q
}.

(** An entry of [self.procedure_benchmarks]. *)
Record Benchmark : Type := {
  costs : list Q;
  claims_per_ben : list Q
}.

(** An entry of [self.provider_stats]. *)
Record ProviderStats : Type := {
  total_spending : Q;
  total_claims : Z;
  total_beneficiaries : Z;
  unique_procedures : Z
}.

(** The accumulating state of a [FraudDetector]. *)
Record Detector : Type := {
  procedure_benchmarks : gmap cell Benchmark;
  provider_stats : gmap cell ProviderStats;
  all_transactions : list Row
}.

(** [FraudDetector.__init__]. *)
Definition init_detector : Detector :=
  {| procedure_benchmarks := ∅; provider_stats := ∅; all_transactions := [] |}.

(** The exceptions the modelled code can raise. *)
Inductive error : Type :=
| KeyError
| IndexError.

(** ** Column normalisation *)

Definition upper_ascii (c : ascii) : ascii :=
  let n := nat_of_ascii c in
  if ((97 <=? n) && (n <=? 122))%nat then ascii_of_nat (n - 32) else c.

(** [str.upper()], on ASCII letters. *)
Fixpoint upper (s : string) : string :=
  match s with
  | EmptyString => EmptyString
  | String c s' => String (upper_ascii c) (upper s')
  end.

(** The table [required_cols]: canonical field and its accepted aliases,
    in the order they are tried. *)
Definition required_cols : list (string * list string) :=
  [ ("billing_npi", ["BILLING_PROVIDER_NPI_NUM"; "BILLING_NPI"; "NPI"]);
    ("servicing_npi", ["SERVICING_PROVIDER_NPI_NUM"; "SERVICING_NPI"]);
    ("procedure_code", ["HCPCS_CODE"; "PROCEDURE_CODE"; "CODE"]);
    ("claim_month", ["CLAIM_FROM_MONTH"; "CLAIM_MONTH"; "MONTH"]);
    ("beneficiaries", ["TOTAL_UNIQUE_BENEFICIARIES"; "BENEFICIARIES"; "BENE_COUNT"]);
    ("claims", ["TOTAL_CLAIMS"; "CLAIMS"; "CLAIM_COUNT"]);
    ("paid", ["TOTAL_PAID"; "PAID"; "AMOUNT"]) ]%string.

(** The inner loop with [break]: the first alias present in the header. *)
Definition first_alias (cols : list string) (possible_names : list string)
  : option string :=
  List.find (fun name => bool_decide (name ∈ cols)) possible_names.

(** One iteration of the outer mapping loop. *)
Definition col_map_step (cols : list string) (col_map : gmap string string)
  (entry : string * list string) : gmap string string :=
  match first_alias cols (snd entry) with
  | Some name => <[name := fst entry]> col_map
  | None => col_map
  end.

(** The dict [col_map], alias found -> canonical field. *)
Definition build_col_map (cols : list string) : gmap string string :=
  fold_left (col_map_step cols) required_cols ∅.

(** [chunk.rename(columns=col_map)] on the header. *)
Definition rename (col_map : gmap string string) (cols : list string)
  : list string :=
  map (fun c => default c (col_map !! c)) cols.

(** Position of a column in the header; [None] is pandas' [KeyError]. *)
Fixpoint col_index (name : string) (cols : list string) : option nat :=
  match cols with
  | [] => None
  | c :: cols' =>
      if bool_decide (c = name) then Some O
      else option_map S (col_index name cols')
  end.

(** The cell of a data row at a position (short rows are padded with NaN). *)
Definition cell_at (i : nat) (r : list cell) : cell := nth i r Null.

(** ** Type coercion and validity *)

(** [pd.to_numeric(..., errors='coerce')]: [None] stands for NaN. *)
Definition to_numeric (c : cell) : option Q :=
  match c with
  | Num q => Some (this q)
  | _ => None
  end.

(** [.fillna(0)]. *)
Definition fillna0 (x : option Q) : Q := default 0 x.

(** [.astype(int)]: truncation towards zero. *)
Definition astype_int (x : Q) : Z := Z.quot (Qnum x) (Z.pos (Qden x)).

(** The row filter of [process_file]. *)
Definition row_valid (r : CleanRow) : bool :=
  notna (c_billing_npi r) && Qltb 0 (c_paid r)
  && (0 <? c_claims r)%Z && (0 <? c_beneficiaries r)%Z.

(** The two derived metrics, computed on the rows that passed the filter. *)
Definition derive (r : CleanRow) : Row :=
  {| billing_npi := c_billing_npi r;
     servicing_npi := c_servicing_npi r;
     procedure_code := c_procedure_code r;
     claim_month := c_claim_month r;
     beneficiaries := c_beneficiaries r;
     claims := c_claims r;
     paid := c_paid r;
     cost_per_claim := c_paid r / inject_Z (c_claims r);
     claims_per_beneficiary := inject_Z (c_claims r) / inject_Z (c_beneficiaries r) |}.

(** ** The two accumulators *)

(** One iteration of the loop of [_update_benchmarks].  The key NaN has
    no rows ([==] never holds for it), so its entry stays empty. *)
Definition benchmark_step (chunk : list Row) (bm : gmap cell Benchmark)
  (proc_code : cell) : gmap cell Benchmark :=
  let proc_data :=
    List.filter (fun r => cell_eqb (procedure_code r) proc_code) chunk in
  let bm :=
    match bm !! proc_code with
    | None => <[proc_code := {| costs := []; claims_per_ben := [] |}]> bm
    | Some _ => bm
    end in
  let b := default {| costs := []; claims_per_ben := [] |} (bm !! proc_code) in
  <[proc_code :=
      {| costs := costs b ++ map cost_per_claim proc_data;
         claims_per_ben :=
           claims_per_ben b ++ map claims_per_beneficiary proc_data |}]> bm.

Definition _update_benchmarks (chunk : list Row) (bm : gmap cell Benchmark)
  : gmap cell Benchmark :=
  fold_left (benchmark_step chunk) (unique (map procedure_code chunk)) bm.

(** A row of the table [provider_groups]. *)
Record GroupRow : Type := {
  g_billing_npi : cell;
  g_paid : Q;
  g_claims : Z;
  g_beneficiaries : Z;
  g_procedure_code : Z
}.

(** The rows of a chunk that [groupby] puts in the group of [npi]. *)
Definition provider_rows (npi : cell) (chunk : list Row) : list Row :=
  List.filter (fun r => cell_eqb (billing_npi r) npi) chunk.

(** [chunk.groupby('billing_npi').agg(...)]: one row per provider of the
    chunk, NaN keys dropped.  pandas sorts the groups by key; they are
    listed here by first appearance, which changes nothing below since
    every group updates the entry of its own key only. *)
Definition provider_groups (chunk : list Row) : list GroupRow :=
  map (fun npi =>
         let g := provider_rows npi chunk in
         {| g_billing_npi := npi;
            g_paid := Qsum (map paid g);
            g_claims := Zsum (map claims g);
            g_beneficiaries := Zsum (map beneficiaries g);
            g_procedure_code := nunique (map procedure_code g) |})
      (unique (List.filter notna (map billing_npi chunk))).

Definition new_provider : ProviderStats :=
  {| total_spending := 0; total_claims := 0%Z;
     total_beneficiaries := 0%Z; unique_procedures := 0%Z |}.

(** One iteration of the loop of [_update_provider_stats]. *)
Definition provider_step (ps : gmap cell ProviderStats) (row : GroupRow)
  : gmap cell ProviderStats :=
  let npi := g_billing_npi row in
  let ps :=
    match ps !! npi with
    | None => <[npi := new_provider]> ps
    | Some _ => ps
    end in
  let st := default new_provider (ps !! npi) in
  <[npi :=
      {| total_spending := total_spending st + g_paid row;
         total_claims := total_claims st + g_claims row;
         total_beneficiaries := total_beneficiaries st + g_beneficiaries row;
         unique_procedures :=
           Z.max (unique_procedures st) (g_procedure_code row) |}]> ps.

Definition _update_provider_stats (chunk : list Row)
  (ps : gmap cell ProviderStats) : gmap cell ProviderStats :=
  fold_left provider_step (provider_groups chunk) ps.

(** ** Phase 1 of [process_file]: the chunk loop *)

(** The first half of the body of the [for chunk in pd.read_csv(...)]
    loop: header normalisation, alias mapping, coercion, filtering and
    the derived metrics.  [inr None] is a [continue] (a required column
    is missing, or no row is valid); [inr (Some rows)] are the rows that
    go on to the buffer and the accumulators. *)
Definition normalize_chunk (chunk : RawChunk) : error + option (list Row) :=
  let cols := map upper (columns chunk) in
  let col_map := build_col_map cols in
  if (size col_map <? length required_cols)%nat then inr None
  else
    let cols := rename col_map cols in
    match col_index "billing_npi" cols, col_index "servicing_npi" cols,
          col_index "procedure_code" cols, col_index "claim_month" cols,
          col_index "beneficiaries" cols, col_index "claims" cols,
          col_index "paid" cols with
    | Some i_npi, Some i_snpi, Some i_code, Some i_month,
      Some i_ben, Some i_claims, Some i_paid =>
        let cleaned :=
          map (fun r =>
                 {| c_billing_npi := cell_at i_npi r;
                    c_servicing_npi := cell_at i_snpi r;
                    c_procedure_code := cell_at i_code r;
                    c_claim_month := cell_at i_month r;
                    c_beneficiaries :=
                      astype_int (fillna0 (to_numeric (cell_at i_ben r)));
                    c_claims :=
                      astype_int (fillna0 (to_numeric (cell_at i_claims r)));
                    c_paid := fillna0 (to_numeric (cell_at i_paid r)) |})
              (records chunk) in
        let valid := List.filter row_valid cleaned in
        if (length valid =? 0)%nat then inr None
        else inr (Some (map derive valid))
    | _, _, _, _, _, _, _ => inl KeyError
    end.

(** The body of the loop: a chunk that is not skipped is appended to the
    buffer and observed by the two accumulators. *)
Definition loop_body (d : Detector) (chunk : RawChunk) : error + Detector :=
  match normalize_chunk chunk with
  | inl e => inl e
  | inr None => inr d
  | inr (Some chunk) =>
      inr {| all_transactions := all_transactions d ++ chunk;
             procedure_benchmarks :=
               _update_benchmarks chunk (procedure_benchmarks d);
             provider_stats :=
               _update_provider_stats chunk (provider_stats d) |}
  end.

(** The chunk loop: chunks are consumed in file order; an exception ends
    the loop. *)
Fixpoint read_chunks (chunks : list RawChunk) (d : Detector)
  : error + Detector :=
  match chunks with
  | [] => inr d
  | chunk :: rest =>
      match loop_body d chunk with
      | inl e => inl e
      | inr d' => read_chunks rest d'
      end
  end.

(** ** Scored rows *)

(** A row of the DataFrame of [_calculate_fraud_scores].  The columns
    the function adds are fields; a column not yet assigned holds the
    value given by [new_scored]. *)
Record ScoredRow : Type := {
  txn : Row;
  cost_z_score : Q;
  claims_per_ben_z_score : Q;
  is_cost_anomaly : bool;
  is_volume_anomaly : bool;
  is_ml_anomaly : bool;
  fraud_risk_score : Q
}.

Definition new_scored (r : Row) : ScoredRow :=
  {| txn := r; cost_z_score := 0; claims_per_ben_z_score := 0;
     is_cost_anomaly := false; is_volume_anomaly := false;
     is_ml_anomaly := false; fraud_risk_score := 0 |}.

Definition set_cost_z_score (v : Q) (r : ScoredRow) : ScoredRow :=
  {| txn := txn r; cost_z_score := v;
     claims_per_ben_z_score := claims_per_ben_z_score r;
     is_cost_anomaly := is_cost_anomaly r;
     is_volume_anomaly := is_volume_anomaly r;
     is_ml_anomaly := is_ml_anomaly r;
     fraud_risk_score := fraud_risk_score r |}.

Definition set_claims_per_ben_z_score (v : Q) (r : ScoredRow) : ScoredRow :=
  {| txn := txn r; cost_z_score := cost_z_score r;
     claims_per_ben_z_score := v;
     is_cost_anomaly := is_cost_anomaly r;
     is_volume_anomaly := is_volume_anomaly r;
     is_ml_anomaly := is_ml_anomaly r;
     fraud_risk_score := fraud_risk_score r |}.

Definition set_is_cost_anomaly (v : bool) (r : ScoredRow) : ScoredRow :=
  {| txn := txn r; cost_z_score := cost_z_score r;
     claims_per_ben_z_score := claims_per_ben_z_score r;
     is_cost_anomaly := v;
     is_volume_anomaly := is_volume_anomaly r;
     is_ml_anomaly := is_ml_anomaly r;
     fraud_risk_score := fraud_risk_score r |}.

Definition set_is_volume_anomaly (v : bool) (r : ScoredRow) : ScoredRow :=
  {| txn := txn r; cost_z_score := cost_z_score r;
     claims_per_ben_z_score := claims_per_ben_z_score r;
     is_cost_anomaly := is_cost_anomaly r;
     is_volume_anomaly := v;
     is_ml_anomaly := is_ml_anomaly r;
     fraud_risk_score := fraud_risk_score r |}.

Definition set_is_ml_anomaly (v : bool) (r : ScoredRow) : ScoredRow :=
  {| txn := txn r; cost_z_score := cost_z_score r;
     claims_per_ben_z_score := claims_per_ben_z_score r;
     is_cost_anomaly := is_cost_anomaly r;
     is_volume_anomaly := is_volume_anomaly r;
     is_ml_anomaly := v;
     fraud_risk_score := fraud_risk_score r |}.

Definition set_fraud_risk_score (v : Q) (r : ScoredRow) : ScoredRow :=
  {| txn := txn r; cost_z_score := cost_z_score r;
     claims_per_ben_z_score := claims_per_ben_z_score r;
     is_cost_anomaly := is_cost_anomaly r;
     is_volume_anomaly := is_volume_anomaly r;
     is_ml_anomaly := is_ml_anomaly r;
     fraud_risk_score := v |}.

(** [df.loc[mask, c] = e] with a row-wise mask and right-hand side. *)
Definition loc_set (mask : ScoredRow -> bool) (upd : ScoredRow -> ScoredRow)
  (df : list ScoredRow) : list ScoredRow :=
  map (fun r => if mask r then upd r else r) df.

(** [df.loc[mask, 'fraud_risk_score'] += v]. *)
Definition add_score (v : Q) (r : ScoredRow) : ScoredRow :=
  set_fraud_risk_score (fraud_risk_score r + v) r.

(** ** Column statistics *)

(** [Series.mean()]. *)
Definition mean (l : list Q) : Q := Qsum l / inject_Z (Z.of_nat (length l)).

(** The sample variance (ddof = 1) under the square root of [Series.std()]. *)
Definition var (l : list Q) : Q :=
  let m := mean l in
  Qsum (map (fun x => (x - m) * (x - m)) l)
  / inject_Z (Z.of_nat (length l) - 1).

(** [Series.rank(pct=True)] of one value of the column: the average of
    the positions its ties occupy in sorted order, over the row count. *)
Definition rank_pct_of (col : list Q) (x : Q) : Q :=
  let less := length (List.filter (fun y => Qltb y x) col) in
  let same := length (List.filter (fun y => Qeq_bool y x) col) in
  (inject_Z (Z.of_nat less) + (inject_Z (Z.of_nat same) + 1) / 2)
  / inject_Z (Z.of_nat (length col)).

Definition rank_pct (col : list Q) : list Q := map (rank_pct_of col) col.

(** The feature vector of the ML pass, in the order of [features]. *)
Definition features (r : Row) : list Q :=
  [cost_per_claim r; claims_per_beneficiary r; paid r;
   inject_Z (claims r); inject_Z (beneficiaries r)].

(** [X.iloc[indices]]; [None] is the [IndexError] of a position past
    the end. *)
Fixpoint iloc {A : Type} (X : list A) (indices : list nat)
  : option (list A) :=
  match indices with
  | [] => Some []
  | i :: rest =>
      match nth_error X i, iloc X rest with
      | Some x, Some xs => Some (x :: xs)
      | _, _ => None
      end
  end.

(** ** Stand-ins for the external libraries

    Concrete, executable instances of the section variables below, used
    to run the embedding on example inputs. *)

(** A square root on rationals, rounded down to six decimals. *)
Definition sqrt_down (x : Q) : Q :=
  Z.sqrt (Qnum x * 1000000000000 / Z.pos (Qden x)) # 1000000.

(** A sampler that reads the generator state as an offset: positions
    [g, g+1, ...] modulo the population size. *)
Definition offset_choice (g : nat) (n k : nat) : list nat :=
  map (fun i => (i + g) mod n)%nat (seq 0 k).

(** A standardizer that leaves the features as they are. *)
Definition id_scaler_fit (X : list (list Q)) : unit := tt.
Definition id_scaler_transform (s : unit) (x : list Q) : list Q := x.

(** An outlier model that remembers nothing and flags the rows whose
    first feature exceeds 5. *)
Definition cut_forest_fit (contamination : Q) (random_state : Z)
  (X : list (list Q)) : unit := tt.
Definition cut_forest_predict (f : unit) (x : list Q) : Z :=
  if Qltb 5 (nth 0 x 0) then (-1)%Z else 1%Z.

(** ** The scoring pass *)

Section Scoring.

(** [np.sqrt], as used by [Series.std()]. *)
Variable sqrtQ : Q -> Q.

(** The state of numpy's global generator, and
    [np.random.choice(n, k, replace=False)] drawn from it. *)
Variable RandState : Type.
Variable choice : RandState -> nat -> nat -> list nat.

(** [StandardScaler]: [fit] and the row-wise [transform]. *)
Variable Scaler : Type.
Variable scaler_fit : list (list Q) -> Scaler.
Variable scaler_transform : Scaler -> list Q -> list Q.

(** [IsolationForest(contamination, random_state)]: [fit] and the
    row-wise [predict], which answers -1 for an outlier and 1 otherwise.
    [fit_predict(X)] is [fit(X)] followed by [predict(X)]. *)
Variable Forest : Type.
Variable forest_fit : Q -> Z -> list (list Q) -> Forest.
Variable forest_predict : Forest -> list Q -> Z.

(** [Series.std()]. *)
Definition std (l : list Q) : Q := sqrtQ (var l).

(** The body of the loop over procedure codes. *)
Definition z_loop_body (df : list ScoredRow) (proc_code : cell)
  : list ScoredRow :=
  let mask := fun r => cell_eqb (procedure_code (txn r)) proc_code in
  let proc_data := List.filter mask df in
  if (length proc_data <? 3)%nat then df
  else
    let mean_cost := mean (map (fun r => cost_per_claim (txn r)) proc_data) in
    let std_cost := std (map (fun r => cost_per_claim (txn r)) proc_data) in
    let df :=
      if Qltb 0 std_cost then
        loc_set mask
          (fun r =>
             set_cost_z_score
               ((cost_per_claim (txn r) - mean_cost) / std_cost) r) df
      else df in
    let mean_cpb :=
      mean (map (fun r => claims_per_beneficiary (txn r)) proc_data) in
    let std_cpb :=
      std (map (fun r => claims_per_beneficiary (txn r)) proc_data) in
    if Qltb 0 std_cpb then
      loc_set mask
        (fun r =>
           set_claims_per_ben_z_score
             ((claims_per_beneficiary (txn r) - mean_cpb) / std_cpb) r) df
    else df.

(** The index array [sample_indices] of the sampling branch. *)
Definition sample_indices (g : RandState) (X : list (list Q)) : list nat :=
  choice g (length X) (N.to_nat 100000).

(** The ML pass: the value assigned to the column [is_ml_anomaly]. *)
Definition ml_pass (g : RandState) (X : list (list Q))
  : error + list bool :=
  if (100000 <? N.of_nat (length X))%N then
    match iloc X (sample_indices g X) with
    | None => inl IndexError
    | Some X_sample =>
        let scaler := scaler_fit X_sample in
        let X_scaled := map (scaler_transform scaler) X_sample in
        let iso_forest := forest_fit (5 # 100) 42 X_scaled in
        let X_full_scaled := map (scaler_transform scaler) X in
        inr (map (fun y => (y =? -1)%Z)
                 (map (forest_predict iso_forest) X_full_scaled))
    end
  else
    let scaler := scaler_fit X in
    let X_scaled := map (scaler_transform scaler) X in
    let iso_forest := forest_fit (5 # 100) 42 X_scaled in
    inr (map (fun y => (y =? -1)%Z)
             (map (forest_predict iso_forest) X_scaled)).

(** The composite score, from the columns computed so far. *)
Definition composite (df : list ScoredRow) : list ScoredRow :=
  let df := map (set_fraud_risk_score 0) df in
  let df :=
    loc_set (fun r => Qltb 3 (cost_z_score r))
      (fun r => add_score (Qmin 30 (cost_z_score r * 5)) r) df in
  let df :=
    loc_set (fun r => Qltb 3 (claims_per_ben_z_score r))
      (fun r => add_score (Qmin 30 (claims_per_ben_z_score r * 5)) r) df in
  let df := loc_set is_ml_anomaly (add_score 25) df in
  let spending_percentile := rank_pct (map (fun r => paid (txn r)) df) in
  let df :=
    zip_with (fun p r => if Qltb (95 # 100) p then add_score 15 r else r)
      spending_percentile df in
  map (fun r => set_fraud_risk_score (Qmin 100 (fraud_risk_score r)) r) df.

(** [_calculate_fraud_scores].  An empty transaction buffer gives a
    DataFrame without columns, and the first column access raises. *)
Definition _calculate_fraud_scores (g : RandState) (rows : list Row)
  : error + list ScoredRow :=
  match rows with
  | [] => inl KeyError
  | _ :: _ =>
      let df := map new_scored rows in
      let df :=
        fold_left z_loop_body
          (unique (map (fun r => procedure_code (txn r)) df)) df in
      let df :=
        map (fun r => set_is_cost_anomaly (Qltb 3 (cost_z_score r)) r) df in
      let df :=
        map (fun r =>
               set_is_volume_anomaly (Qltb 3 (claims_per_ben_z_score r)) r)
            df in
      let X := map (fun r => features (txn r)) df in
      match ml_pass g X with
      | inl e => inl e
      | inr flags =>
          let df := zip_with set_is_ml_anomaly flags df in
          inr (composite df)
      end
  end.

(** [process_file] after the existence test: the chunk loop, then the
    scoring pass; any exception is caught and reported as failure. *)
Definition scored_frame (g : RandState) (chunks : list RawChunk)
  : error + list ScoredRow :=
  match read_chunks chunks init_detector with
  | inl e => inl e
  | inr d => _calculate_fraud_scores g (all_transactions d)
  end.

Definition process_file (g : RandState) (chunks : list RawChunk) : bool :=
  match scored_frame g chunks with
  | inl _ => false
  | inr _ => true
  end.

(** *** Closed forms of the scoring pass, used by the proofs *)

(** The score accumulated by the first three contributions. *)
Definition accumulated (r : ScoredRow) : Q :=
  let s := 0 in
  let s :=
    if Qltb 3 (cost_z_score r) then s + Qmin 30 (cost_z_score r * 5) else s in
  let s :=
    if Qltb 3 (claims_per_ben_z_score r)
    then s + Qmin 30 (claims_per_ben_z_score r * 5) else s in
  if is_ml_anomaly r then s + 25 else s.

(** The mask [spending_percentile > 0.95] at a row whose paid amount is
    [x], in a population whose paid column is [col]. *)
Definition spend_flag (col : list Q) (x : Q) : bool :=
  Qltb (95 # 100) (rank_pct_of col x).

(** A row after the three row-wise contributions. *)
Definition before_spend (r : ScoredRow) : ScoredRow :=
  let r := set_fraud_risk_score 0 r in
  let r :=
    if Qltb 3 (cost_z_score r)
    then add_score (Qmin 30 (cost_z_score r * 5)) r else r in
  let r :=
    if Qltb 3 (claims_per_ben_z_score r)
    then add_score (Qmin 30 (claims_per_ben_z_score r * 5)) r else r in
  if is_ml_anomaly r then add_score 25 r else r.

(** A row after the whole of [composite]. *)
Definition composite_row (col : list Q) (r : ScoredRow) : ScoredRow :=
  let r' := before_spend r in
  let r' := if spend_flag col (paid (txn r)) then add_score 15 r' else r' in
  set_fraud_risk_score (Qmin 100 (fraud_risk_score r')) r'.

(** The four contributions to the composite score. *)
Definition cost_contribution (sr : ScoredRow) : Q :=
  if Qltb 3 (cost_z_score sr) then Qmin 30 (cost_z_score sr * 5) else 0.

Definition volume_contribution (sr : ScoredRow) : Q :=
  if Qltb 3 (claims_per_ben_z_score sr)
  then Qmin 30 (claims_per_ben_z_score sr * 5) else 0.

Definition ml_contribution (sr : ScoredRow) : Q :=
  if is_ml_anomaly sr then 25 else 0.

Definition spend_contribution (rows : list Row) (sr : ScoredRow) : Q :=
  if spend_flag (map paid rows) (paid (txn sr)) then 15 else 0.

(** The buffered rows whose procedure code compares equal to [c]. *)
Definition same_code (rows : list Row) (c : cell) : list Row :=
  List.filter (fun r => cell_eqb (procedure_code r) c) rows.

(** The z-score of [metric] for row [r] against the rows of its code. *)
Definition z_of (metric : Row -> Q) (rows : list Row) (r : Row) : Q :=
  let grp := same_code rows (procedure_code r) in
  if (length grp <? 3)%nat then 0
  else
    let s := std (map metric grp) in
    if Qltb 0 s then (metric r - mean (map metric grp)) / s else 0.

(** What one iteration of the loop over codes does to one row. *)
Definition z_row_step (rows : list Row) (sr : ScoredRow) (c : cell)
  : ScoredRow :=
  let grp := same_code rows c in
  if (length grp <? 3)%nat then sr
  else
    let hit := cell_eqb (procedure_code (txn sr)) c in
    let sr :=
      if Qltb 0 (std (map cost_per_claim grp)) && hit then
        set_cost_z_score
          ((cost_per_claim (txn sr) - mean (map cost_per_claim grp))
           / std (map cost_per_claim grp)) sr
      else sr in
    if Qltb 0 (std (map claims_per_beneficiary grp)) && hit then
      set_claims_per_ben_z_score
        ((claims_per_beneficiary (txn sr)
          - mean (map claims_per_beneficiary grp))
         / std (map claims_per_beneficiary grp)) sr
    else sr.

(** A row after the statistical pass. *)
Definition z_row (rows : list Row) (r : Row) : ScoredRow :=
  set_claims_per_ben_z_score (z_of claims_per_beneficiary rows r)
    (set_cost_z_score (z_of cost_per_claim rows r) (new_scored r)).

(** A row after the flags are assigned, [ml] being its ML flag. *)
Definition flagged_row (rows : list Row) (ml : bool) (r : Row) : ScoredRow :=
  set_is_ml_anomaly ml
    (set_is_volume_anomaly (Qltb 3 (z_of claims_per_beneficiary rows r))
       (set_is_cost_anomaly (Qltb 3 (z_of cost_per_claim rows r))
          (z_row rows r))).

(** A row of the result of [_calculate_fraud_scores]. *)
Definition final_row (rows : list Row) (ml : bool) (r : Row) : ScoredRow :=
  composite_row (map paid rows) (flagged_row rows ml r).

(** The rows the standardizer and the outlier model are fitted on. *)
Definition training_rows (g : RandState) (X : list (list Q))
  : option (list (list Q)) :=
  if (100000 <? N.of_nat (length X))%N
  then iloc X (sample_indices g X)
  else Some X.

(** The standardizer and the outlier model fitted on [T]. *)
Definition fitted_on (T : list (list Q)) : Scaler * Forest :=
  let scaler := scaler_fit T in
  (scaler, forest_fit (5 # 100) 42 (map (scaler_transform scaler) T)).

(** The ML flag a fitted pair gives to a feature vector. *)
Definition judge (m : Scaler * Forest) (x : list Q) : bool :=
  (forest_predict (snd m) (scaler_transform (fst m) x) =? -1)%Z.

End Scoring.

(** ** Notions the properties are stated with *)

(** A required field none of whose aliases is in the upper-cased header. *)
Definition missing_required_field (chunk : RawChunk) : Prop :=
  exists target aliases,
    In (target, aliases) required_cols
    /\ forall name, In name aliases -> ~ In name (map upper (columns chunk)).

(** The rows a chunk hands to the buffer and the accumulators (none when
    the chunk is skipped). *)
Definition chunk_rows (chunk : RawChunk) : list Row :=
  match normalize_chunk chunk with
  | inr (Some rows) => rows
  | _ => []
  end.

(** The provider rollup over a sequence of validated chunks. *)
Definition rollup (chunks : list (list Row)) (ps : gmap cell ProviderStats)
  : gmap cell ProviderStats :=
  fold_left (fun ps chunk => _update_provider_stats chunk ps) chunks ps.







(** Following the spec's words ("at or above the 95th percentile of paid
    amounts across the whole population"), with the nearest-rank
    percentile: the 95th percentile is the smallest population value
    that at least 95% of the population does not exceed, so [x] is at or
    above it exactly when at least 95% of the population is [<= x]. *)
Definition spec_at_or_above_p95 (col : list Q) (x : Q) : bool :=
  (19 * Z.of_nat (length col)
   <=? 20 * Z.of_nat (length (List.filter (fun y => Qle_bool y x) col)))%Z.

(** ** Example inputs *)

Definition example_row (npi code : string) (ben cl : Z) (amount : Q) : Row :=
  derive {| c_billing_npi := Text npi; c_servicing_npi := Null;
            c_procedure_code := Text code; c_claim_month := Text "2024-01";
            c_beneficiaries := ben; c_claims := cl; c_paid := amount |}.

(** Ten ordinary rows and one outlier of code A, two rows of code B and
    three identical rows of code C. *)
Definition example_rows : list Row :=
  repeat (example_row "P1" "A" 1 1 1) 10
  ++ [example_row "P2" "A" 1 12 144]
  ++ repeat (example_row "P3" "B" 1 1 2) 2
  ++ repeat (example_row "P4" "C" 2 2 6) 3.

(** Two rows with the same paid amount. *)
Definition tied_rows : list Row := repeat (example_row "P1" "A" 1 1 5) 2.

(** Twenty rows with paid amounts 1, 2, ..., 20. *)
Definition ladder_rows : list Row :=
  map (fun k => example_row "P1" "A" 1 1 (inject_Z (Z.of_nat k))) (seq 1 20).

(** Ten ordinary rows and one outlier of code A, as in [example_rows],
    and three rows of code B that are paid as much as the outlier. *)
Definition top_tie_rows : list Row :=
  repeat (example_row "P1" "A" 1 1 1) 10
  ++ [example_row "P2" "A" 1 12 144]
  ++ repeat (example_row "P3" "B" 12 12 144) 3.

(** 100,001 pairwise distinct rows. *)
Definition big_rows : list Row :=
  map (fun i => example_row "P1" "A" 1 (Z.of_nat i + 1) 1)
      (seq 0 (N.to_nat 100001)).

(** The scoring pass with the stand-ins for the external libraries. *)
Definition example_scores (g : nat) (rows : list Row)
  : error + list ScoredRow :=
  _calculate_fraud_scores sqrt_down nat offset_choice unit id_scaler_fit
    id_scaler_transform unit cut_forest_fit cut_forest_predict g rows.

Definition example_out : list ScoredRow :=
  match example_scores 0%nat example_rows with
  | inr out => out
  | inl _ => []
  end.

(** The scored outlier of code A, a scored row of code B and one of
    code C. *)
Definition example_outlier : ScoredRow :=
  nth 10 example_out (new_scored (example_row "" "" 0 0 0)).
Definition example_small : ScoredRow :=
  nth 11 example_out (new_scored (example_row "" "" 0 0 0)).
Definition example_constant : ScoredRow :=
  nth 13 example_out (new_scored (example_row "" "" 0 0 0)).

(** A header without any alias of the field [paid]. *)
Definition chunk_without_paid : RawChunk :=
  {| columns := ["npi"; "servicing_npi"; "code"; "month"; "bene_count";
                 "claims"];
     records := [[Num (Q2Qc 7); Null; Text "A"; Text "2024-01";
                  Num (Q2Qc 2); Num (Q2Qc 4)]] |}.

Definition raw_chunk (codes : list string) : RawChunk :=
  {| columns := ["NPI"; "Servicing_NPI"; "hcpcs_code"; "claim_month";
                 "beneficiaries"; "claims"; "paid"];
     records :=
       map (fun code => [Num (Q2Qc 7); Null; Text code; Text "2024-01";
                         Num (Q2Qc 2); Num (Q2Qc 4); Num (Q2Qc 100)])
           codes |}.

(** Provider 7 with three distinct codes in one chunk and five in the
    next, two of them shared: six distinct codes overall. *)
Definition chunk_A : RawChunk := raw_chunk ["a"; "b"; "c"; "a"].
Definition chunk_B : RawChunk := raw_chunk ["b"; "c"; "d"; "e"; "f"].

(** ** Notions the further properties are stated with *)

(** What the row filter and the derived metrics give every buffered row. *)
Definition valid_row (r : Row) : Prop :=
  billing_npi r <> Null
  /\ 0 < paid r
  /\ (0 < claims r)%Z
  /\ (0 < beneficiaries r)%Z
  /\ cost_per_claim r = paid r / inject_Z (claims r)
  /\ claims_per_beneficiary r
     = inject_Z (claims r) / inject_Z (beneficiaries r).

(** A benchmark entry extended with the values of some rows. *)
Definition extend (b : Benchmark) (proc_data : list Row) : Benchmark :=
  {| costs := costs b ++ map cost_per_claim proc_data;
     claims_per_ben :=
       claims_per_ben b ++ map claims_per_beneficiary proc_data |}.

Definition new_benchmark : Benchmark := {| costs := []; claims_per_ben := [] |}.

(** The collections of an entry are the values of the given rows, in
    order. *)
Definition values_match (rows : list Row) (b : Benchmark) : Prop :=
  costs b = map cost_per_claim rows
  /\ claims_per_ben b = map claims_per_beneficiary rows.

(** ** The reports

    The tables [_generate_reports] writes; the files themselves and the
    layout of the text report are not modelled. *)

(** [sum()] of a boolean column: the number of rows where it holds. *)
Definition count_true (l : list bool) : Z :=
  Z.of_nat (length (List.filter (fun b : bool => b) l)).

Module Summary.

(** A row of [provider_summary], with the column names the code gives. *)
Record row : Type := {
  provider_npi : cell;
  avg_fraud_risk_score : Q;
  total_spending : Q;
  total_claims : Z;
  total_beneficiaries : Z;
  cost_anomaly_count : Z;
  volume_anomaly_count : Z;
  ml_anomaly_count : Z;
  total_anomalies : Z
}.

End Summary.

(** The two tables written as CSV files. *)
Record Reports : Type := {
  fraud_detection_results : list Summary.row;
  detailed_anomalies : list ScoredRow
}.

(** The scored rows [groupby('billing_npi')] puts in the group of [npi]. *)
Definition provider_scored (npi : cell) (df : list ScoredRow)
  : list ScoredRow :=
  List.filter (fun r => cell_eqb (billing_npi (txn r)) npi) df.

(** The aggregate of one provider: mean score, sums and flag counts,
    then [total_anomalies] as the sum of the three counts. *)
Definition summary_row (df : list ScoredRow) (npi : cell) : Summary.row :=
  let g := provider_scored npi df in
  let cost_count := count_true (map is_cost_anomaly g) in
  let volume_count := count_true (map is_volume_anomaly g) in
  let ml_count := count_true (map is_ml_anomaly g) in
  {| Summary.provider_npi := npi;
     Summary.avg_fraud_risk_score := mean (map fraud_risk_score g);
     Summary.total_spending := Qsum (map (fun r => paid (txn r)) g);
     Summary.total_claims := Zsum (map (fun r => claims (txn r)) g);
     Summary.total_beneficiaries :=
       Zsum (map (fun r => beneficiaries (txn r)) g);
     Summary.cost_anomaly_count := cost_count;
     Summary.volume_anomaly_count := volume_count;
     Summary.ml_anomaly_count := ml_count;
     Summary.total_anomalies := (cost_count + volume_count + ml_count)%Z |}.

(** The row selection of the detailed anomalies report. *)
Definition is_reported (r : ScoredRow) : bool :=
  is_cost_anomaly r || is_volume_anomaly r || is_ml_anomaly r
  || Qltb 75 (fraud_risk_score r).

(** Insertion into a list ordered by descending key, and the sort built
    on it: a stand-in for [sort_values(key, ascending=False)]. *)
Fixpoint insert_desc {A : Type} (key : A -> Q) (x : A) (l : list A)
  : list A :=
  match l with
  | [] => [x]
  | y :: l' =>
      if Qle_bool (key y) (key x) then x :: l else y :: insert_desc key x l'
  end.

Definition insertion_sort_desc (A : Type) (key : A -> Q) (l : list A)
  : list A :=
  fold_right (insert_desc key) [] l.

Section Reports.

(** [DataFrame.sort_values(key, ascending=False)]. *)
Variable sort_values : forall A : Type, (A -> Q) -> list A -> list A.

(** [provider_summary]: one row per provider, ordered by descending mean
    score. *)
Definition provider_summary (df : list ScoredRow) : list Summary.row :=
  let table :=
    map (summary_row df)
        (unique (List.filter notna (map (fun r => billing_npi (txn r)) df))) in
  sort_values _ Summary.avg_fraud_risk_score table.

(** [high_risk_providers]: the providers whose mean score exceeds 50. *)
Definition high_risk_providers (df : list ScoredRow) : list Summary.row :=
  List.filter (fun p => Qltb 50 (Summary.avg_fraud_risk_score p))
    (provider_summary df).

(** [anomalies]: the reported rows, ordered by descending score. *)
Definition anomalies (df : list ScoredRow) : list ScoredRow :=
  sort_values _ fraud_risk_score (List.filter is_reported df).

Definition _generate_reports (df : list ScoredRow) : Reports :=
  {| fraud_detection_results := high_risk_providers df;
     detailed_anomalies := anomalies df |}.

End Reports.

(** ** Further example inputs *)

(** Thirty ordinary rows and one outlier of a single code. *)
Definition wide_rows : list Row :=
  repeat (example_row "P1" "A" 1 1 1) 30 ++ [example_row "P2" "A" 1 12 144].

Definition wide_out : list ScoredRow :=
  match example_scores 0%nat wide_rows with
  | inr out => out
  | inl _ => []
  end.

Definition wide_outlier : ScoredRow :=
  nth 30 wide_out (new_scored (example_row "" "" 0 0 0)).

(** The detector after the two example chunks, and the scored table of
    its buffer. *)
Definition example_detector : Detector :=
  match read_chunks [chunk_A; chunk_B] init_detector with
  | inr d => d
  | inl _ => init_detector
  end.

Definition example_frame : list ScoredRow :=
  match example_scores 0%nat (all_transactions example_detector) with
  | inr out => out
  | inl _ => []
  end.


(** * Proofs *)

(** Case analysis on the first [Qmin] of the goal, closed by linear
    arithmetic. *)
Ltac qmin_cases :=
  match goal with
  | |- context [Qmin ?a ?b] =>
      destruct (Q.min_spec a b) as [[? ->]|[? ->]]; lra
  end.

(** Evaluation of a closed goal. *)
Ltac run_example := vm_compute; reflexivity.

(** ** Rationals *)

Lemma Qltb_lt (a b : Q) : Qltb a b = true <-> a < b.
Proof.
  unfold Qltb. rewrite negb_true_iff.
  split.
  - intros H. apply Qnot_le_lt. intros Hle.
    apply Qle_bool_iff in Hle. congruence.
  - intros H. destruct (Qle_bool b a) eqn:E; [|reflexivity].
    apply Qle_bool_iff in E. lra.
Qed.

Lemma Qltb_nlt (a b : Q) : Qltb a b = false <-> ~ a < b.
Proof.
  rewrite <- Qltb_lt. destruct (Qltb a b); split; congruence.
Qed.

Lemma capped_contribution (z : Q) : 3 < z -> 15 < Qmin 30 (z * 5) <= 30.
Proof.
  intros Hz.
  destruct (Q.min_spec 30 (z * 5)) as [[H E]|[H E]]; rewrite E; lra.
Qed.

Lemma rank_above_95_iff (col : list Q) (x : Q) :
  (0 < length col)%nat ->
  let less := Z.of_nat (length (List.filter (fun y => Qltb y x) col)) in
  let same := Z.of_nat (length (List.filter (fun y => Qeq_bool y x) col)) in
  let n := Z.of_nat (length col) in
  95 # 100 < rank_pct_of col x <-> (19 * n < 10 * (2 * less + same + 1))%Z.
Proof.
  intros Hn less same n. unfold rank_pct_of. fold less same n.
  change ((inject_Z same + 1) / 2) with ((inject_Z same + 1) * (1 # 2)).
  assert (0 < inject_Z n) as Hpos.
  { change 0 with (inject_Z 0). rewrite <- Zlt_Qlt. unfold n. lia. }
  rewrite Zlt_Qlt, !inject_Z_mult, !inject_Z_plus, !inject_Z_mult.
  change (inject_Z 19) with 19. change (inject_Z 10) with 10.
  change (inject_Z 2) with 2. change (inject_Z 1) with 1.
  set (L := inject_Z less) in *. set (S := inject_Z same) in *.
  set (N := inject_Z n) in *.
  split; intros H.
  - assert ((95 # 100) * N < L + (S + 1) * (1 # 2)) as H'.
    { apply Qmult_lt_r with (z := / N); [now apply Qinv_lt_0_compat|].
      rewrite <- Qmult_assoc, Qmult_inv_r by lra.
      rewrite Qmult_1_r. exact H. }
    lra.
  - apply Qlt_shift_div_l; [exact Hpos|]. lra.
Qed.

(** ** Cells and lists *)

Lemma cell_eqb_eq (a b : cell) : cell_eqb a b = true -> a = b.
Proof.
  destruct a, b; simpl; try discriminate; intros H;
    now apply bool_decide_eq_true in H.
Qed.

Lemma cell_eqb_refl (a : cell) : a <> Null -> cell_eqb a a = true.
Proof.
  destruct a; simpl; [congruence| |]; intros _; now apply bool_decide_eq_true.
Qed.

Lemma cell_eqb_Null_r (a : cell) : cell_eqb a Null = false.
Proof. now destruct a. Qed.

Lemma in_unique (x : cell) (l : list cell) : In x (unique l) <-> In x l.
Proof.
  induction l as [|y l IH]; simpl; [tauto|].
  rewrite filter_In, IH, negb_true_iff, bool_decide_eq_false.
  destruct (decide (x = y)) as [->|Hne]; [tauto|].
  split; [tauto|]. intros [->|H]; [congruence|tauto].
Qed.

Lemma filter_map_comm {A B : Type} (p : B -> bool) (f : A -> B) (l : list A) :
  List.filter p (map f l) = map f (List.filter (fun x => p (f x)) l).
Proof.
  induction l as [|x l IH]; simpl; [reflexivity|].
  destruct (p (f x)); simpl; now rewrite IH.
Qed.

Lemma zip_with_maps {A B C D : Type} (f : B -> C -> D) (g : A -> B)
  (h : A -> C) (l : list A) :
  zip_with f (map g l) (map h l) = map (fun x => f (g x) (h x)) l.
Proof. induction l as [|x l IH]; simpl; [reflexivity|]. now rewrite IH. Qed.

Lemma same_code_Null (rows : list Row) : same_code rows Null = [].
Proof.
  unfold same_code. induction rows as [|r rows IH]; simpl; [reflexivity|].
  now rewrite cell_eqb_Null_r.
Qed.

Lemma iloc_Some {A : Type} (X : list A) (indices : list nat) :
  (forall i, In i indices -> (i < length X)%nat) ->
  exists T, iloc X indices = Some T.
Proof.
  induction indices as [|i indices IH]; intros Hrange; simpl.
  - now exists [].
  - destruct IH as [T ->]; [intros j Hj; apply Hrange; now right|].
    destruct (nth_error X i) as [x|] eqn:E.
    + now exists (x :: T).
    + apply nth_error_None in E. specialize (Hrange i (or_introl eq_refl)).
      lia.
Qed.


Lemma iloc_In {A : Type} (X : list A) (indices : list nat) (T : list A)
  (x : A) :
  iloc X indices = Some T ->
  In x T <-> exists i, In i indices /\ nth_error X i = Some x.
Proof.
  revert T. induction indices as [|i indices IH]; intros T; simpl.
  - intros [= <-]. simpl. split; [tauto|intros (i & [] & _)].
  - destruct (nth_error X i) as [y|] eqn:E; [|discriminate].
    destruct (iloc X indices) as [T'|]; [|discriminate].
    intros [= <-]. simpl. rewrite (IH T' eq_refl).
    split.
    + intros [<-|(j & Hj & Hx)]; [exists i; tauto|exists j; tauto].
    + intros (j & [<-|Hj] & Hx); [left; congruence|right; exists j; tauto].
Qed.

(** ** The composite score, row by row *)

Lemma before_spend_fields (r : ScoredRow) :
  txn (before_spend r) = txn r
  /\ cost_z_score (before_spend r) = cost_z_score r
  /\ claims_per_ben_z_score (before_spend r) = claims_per_ben_z_score r
  /\ is_cost_anomaly (before_spend r) = is_cost_anomaly r
  /\ is_volume_anomaly (before_spend r) = is_volume_anomaly r
  /\ is_ml_anomaly (before_spend r) = is_ml_anomaly r
  /\ fraud_risk_score (before_spend r) = accumulated r.
Proof.
  destruct r as [t zc zv ic iv ml s].
  unfold before_spend, accumulated; simpl.
  destruct (Qltb 3 zc); simpl; destruct (Qltb 3 zv); simpl;
    destruct ml; simpl; repeat split; reflexivity.
Qed.

Lemma composite_row_fields (col : list Q) (r : ScoredRow) :
  txn (composite_row col r) = txn r
  /\ cost_z_score (composite_row col r) = cost_z_score r
  /\ claims_per_ben_z_score (composite_row col r) = claims_per_ben_z_score r
  /\ is_cost_anomaly (composite_row col r) = is_cost_anomaly r
  /\ is_volume_anomaly (composite_row col r) = is_volume_anomaly r
  /\ is_ml_anomaly (composite_row col r) = is_ml_anomaly r
  /\ fraud_risk_score (composite_row col r)
     = Qmin 100 (if spend_flag col (paid (txn r))
                 then accumulated r + 15 else accumulated r).
Proof.
  destruct (before_spend_fields r) as (Ht & Hc & Hv & Hic & Hiv & Hml & Hs).
  unfold composite_row.
  destruct (spend_flag col (paid (txn r))); simpl;
    rewrite ?Ht, ?Hc, ?Hv, ?Hic, ?Hiv, ?Hml, ?Hs; repeat split; reflexivity.
Qed.

Lemma accumulated_composite_row (col : list Q) (r : ScoredRow) :
  accumulated (composite_row col r) = accumulated r.
Proof.
  destruct (composite_row_fields col r) as (_ & Hc & Hv & _ & _ & Hml & _).
  unfold accumulated. now rewrite Hc, Hv, Hml.
Qed.

Lemma composite_unfold (df : list ScoredRow) :
  composite df =
  map (fun r => set_fraud_risk_score (Qmin 100 (fraud_risk_score r)) r)
    (zip_with (fun p r => if Qltb (95 # 100) p then add_score 15 r else r)
       (rank_pct (map (fun r => paid (txn r)) (map before_spend df)))
       (map before_spend df)).
Proof. unfold composite, loc_set. rewrite !map_map. reflexivity. Qed.

Lemma composite_spec (df : list ScoredRow) :
  composite df = map (composite_row (map (fun r => paid (txn r)) df)) df.
Proof.
  rewrite composite_unfold, map_map.
  rewrite (map_ext (fun x => paid (txn (before_spend x)))
                   (fun x => paid (txn x)))
    by (intros x; now destruct (before_spend_fields x) as [-> _]).
  set (col := map (fun r => paid (txn r)) df).
  unfold rank_pct, col at 2.
  rewrite map_map, zip_with_maps, map_map.
  reflexivity.
Qed.

Lemma accumulated_contributions (sr : ScoredRow) :
  accumulated sr
  == 0 + cost_contribution sr + volume_contribution sr + ml_contribution sr.
Proof.
  unfold accumulated, cost_contribution, volume_contribution, ml_contribution.
  destruct (Qltb 3 (cost_z_score sr));
    destruct (Qltb 3 (claims_per_ben_z_score sr));
    destruct (is_ml_anomaly sr); ring.
Qed.

Lemma contributions_bounds (rows : list Row) (sr : ScoredRow) :
  0 <= cost_contribution sr <= 30
  /\ 0 <= volume_contribution sr <= 30
  /\ 0 <= ml_contribution sr <= 25
  /\ 0 <= spend_contribution rows sr <= 15.
Proof.
  unfold cost_contribution, volume_contribution, ml_contribution,
    spend_contribution.
  repeat split;
    try (destruct (Qltb 3 (cost_z_score sr)) eqn:E;
         [apply Qltb_lt, capped_contribution in E|]; lra);
    try (destruct (Qltb 3 (claims_per_ben_z_score sr)) eqn:E;
         [apply Qltb_lt, capped_contribution in E|]; lra);
    try (destruct (is_ml_anomaly sr); lra);
    destruct (spend_flag _ _); lra.
Qed.

(** ** The scoring pass *)

Section ScoringProofs.

Variable sqrtQ : Q -> Q.
Variable RandState : Type.
Variable choice : RandState -> nat -> nat -> list nat.
Variable Scaler : Type.
Variable scaler_fit : list (list Q) -> Scaler.
Variable scaler_transform : Scaler -> list Q -> list Q.
Variable Forest : Type.
Variable forest_fit : Q -> Z -> list (list Q) -> Forest.
Variable forest_predict : Forest -> list Q -> Z.

Abbreviation std := (std sqrtQ).
Abbreviation z_loop_body := (z_loop_body sqrtQ).
Abbreviation z_of := (z_of sqrtQ).
Abbreviation z_row_step := (z_row_step sqrtQ).
Abbreviation z_row := (z_row sqrtQ).
Abbreviation flagged_row := (flagged_row sqrtQ).
Abbreviation final_row := (final_row sqrtQ).
Abbreviation sample_indices := (sample_indices RandState choice).
Abbreviation training_rows := (training_rows RandState choice).
Abbreviation fitted_on :=
  (fitted_on Scaler scaler_fit scaler_transform Forest forest_fit).
Abbreviation judge := (judge Scaler scaler_transform Forest forest_predict).
Abbreviation ml_pass :=
  (ml_pass RandState choice Scaler scaler_fit scaler_transform
     Forest forest_fit forest_predict).
Abbreviation calc :=
  (_calculate_fraud_scores sqrtQ RandState choice Scaler scaler_fit
     scaler_transform Forest forest_fit forest_predict).

(** *** The statistical pass *)

Lemma z_loop_body_rows (df : list ScoredRow) (c : cell) :
  z_loop_body df c = map (fun sr => z_row_step (map txn df) sr c) df.
Proof.
  unfold z_loop_body, z_row_step, same_code, loc_set.
  rewrite filter_map_comm, !map_map, !length_map.
  set (grp := List.filter _ df).
  destruct (length grp <? 3)%nat; [now rewrite map_id|].
  destruct (Qltb 0 (std (map (fun r => cost_per_claim (txn r)) grp)));
    destruct (Qltb 0 (std
                        (map (fun r => claims_per_beneficiary (txn r)) grp)));
    simpl; rewrite ?map_map; try (now rewrite map_id); apply map_ext; intros sr;
    destruct (cell_eqb (procedure_code (txn sr)) c) eqn:E; simpl;
    rewrite ?E; reflexivity.
Qed.

Lemma txn_z_row_step (rows : list Row) (sr : ScoredRow) (c : cell) :
  txn (z_row_step rows sr c) = txn sr.
Proof.
  unfold z_row_step.
  destruct (length (same_code rows c) <? 3)%nat; [reflexivity|].
  destruct (_ && _); destruct (_ && _); reflexivity.
Qed.

Lemma z_fold_rows (codes : list cell) (df : list ScoredRow) :
  fold_left (z_loop_body) codes df
  = map (fun sr => fold_left (z_row_step (map txn df)) codes sr) df.
Proof.
  revert df. induction codes as [|c codes IH]; intros df; simpl.
  - now rewrite map_id.
  - rewrite IH, z_loop_body_rows, !map_map.
    apply map_ext_in; intros sr _.
    f_equal. f_equal. apply map_ext; intros x. apply txn_z_row_step.
Qed.

Lemma z_row_step_miss (rows : list Row) (sr : ScoredRow) (c : cell) :
  cell_eqb (procedure_code (txn sr)) c = false ->
  z_row_step rows sr c = sr.
Proof.
  intros E. unfold z_row_step. rewrite E, !andb_false_r.
  now destruct (length (same_code rows c) <? 3)%nat.
Qed.

Lemma z_row_step_hit (rows : list Row) (r : Row) :
  z_row_step rows (new_scored r) (procedure_code r) = z_row rows r
  /\ z_row_step rows (z_row rows r) (procedure_code r)
     = z_row rows r.
Proof.
  unfold z_row_step, z_row, z_of; simpl.
  destruct (decide (procedure_code r = Null)) as [E|E].
  - rewrite E, same_code_Null. split; reflexivity.
  - rewrite (cell_eqb_refl _ E), !andb_true_r.
    destruct (length (same_code rows (procedure_code r)) <? 3)%nat;
      [split; reflexivity|].
    destruct (Qltb 0 (std (map cost_per_claim _)));
      destruct (Qltb 0 (std (map claims_per_beneficiary _)));
      split; reflexivity.
Qed.

Lemma z_fold_row (rows : list Row) (r : Row) (codes : list cell) :
  fold_left (z_row_step rows) codes (z_row rows r)
  = z_row rows r
  /\ fold_left (z_row_step rows) codes (new_scored r)
     = if existsb (cell_eqb (procedure_code r)) codes
       then z_row rows r else new_scored r.
Proof.
  induction codes as [|c codes [IH1 IH2]]; simpl; [split; reflexivity|].
  destruct (cell_eqb (procedure_code r) c) eqn:E; simpl.
  - apply cell_eqb_eq in E. subst c.
    destruct (z_row_step_hit rows r) as [-> ->]. split; exact IH1.
  - rewrite !z_row_step_miss by (simpl; exact E || exact E).
    split; assumption.
Qed.

Lemma z_row_Null (rows : list Row) (r : Row) :
  procedure_code r = Null -> z_row rows r = new_scored r.
Proof.
  intros E. unfold z_row, z_of. rewrite E, same_code_Null. reflexivity.
Qed.

(** The loop over procedure codes gives every row the z-scores of its
    own code. *)
Lemma z_pass_spec (rows : list Row) :
  fold_left (z_loop_body)
    (unique (map (fun r => procedure_code (txn r)) (map new_scored rows)))
    (map new_scored rows)
  = map (z_row rows) rows.
Proof.
  rewrite z_fold_rows, !map_map. simpl.
  rewrite map_id.
  apply map_ext_in; intros r Hr.
  change (fun x : Row => procedure_code x) with procedure_code.
  destruct (z_fold_row rows r (unique (map procedure_code rows))) as [_ ->].
  destruct (existsb _ _) eqn:E; [reflexivity|].
  destruct (decide (procedure_code r = Null)) as [HN|HN];
    [now rewrite z_row_Null|].
  exfalso.
  assert (existsb (cell_eqb (procedure_code r))
            (unique (map procedure_code rows)) = true) as E'.
  { apply existsb_exists. exists (procedure_code r). split.
    - apply in_unique, in_map, Hr.
    - now apply cell_eqb_refl. }
  congruence.
Qed.

(** *** The ML pass and the whole function *)

Lemma ml_pass_spec (g : RandState) (X : list (list Q)) :
  ml_pass g X =
  match training_rows g X with
  | None => inl IndexError
  | Some T => inr (map (judge (fitted_on T)) X)
  end.
Proof.
  unfold ml_pass, training_rows.
  destruct (100000 <? N.of_nat (length X))%N.
  - destruct (iloc X _); [|reflexivity]. now rewrite !map_map.
  - now rewrite !map_map.
Qed.

(** The whole scoring pass, row by row. *)
Lemma calculate_fraud_scores_spec (g : RandState) (rows : list Row) :
  calc g rows =
  match rows with
  | [] => inl KeyError
  | _ :: _ =>
      match training_rows g (map features rows) with
      | None => inl IndexError
      | Some T =>
          inr (map (fun r =>
                      final_row rows
                        (judge (fitted_on T) (features r)) r) rows)
      end
  end.
Proof.
  unfold _calculate_fraud_scores.
  destruct rows as [|r0 rows0]; [reflexivity|].
  set (rows := r0 :: rows0).
  rewrite z_pass_spec, !map_map. simpl txn.
  change (map (fun x => features x) rows) with (map features rows).
  rewrite ml_pass_spec.
  destruct (training_rows g (map features rows)) as [T|]; [|reflexivity].
  f_equal.
  rewrite map_map, zip_with_maps, composite_spec, !map_map. simpl.
  reflexivity.
Qed.

Lemma calculate_fraud_scores_nonempty (g : RandState) (rows : list Row) :
  rows <> [] ->
  calc g rows =
  match training_rows g (map features rows) with
  | None => inl IndexError
  | Some T =>
      inr (map (fun r =>
                  final_row rows (judge (fitted_on T) (features r)) r)
               rows)
  end.
Proof.
  intros Hne. rewrite calculate_fraud_scores_spec.
  destruct rows; [congruence|reflexivity].
Qed.

Lemma calculate_fraud_scores_inr (g : RandState) (rows : list Row)
  (out : list ScoredRow) :
  calc g rows = inr out ->
  exists T,
    training_rows g (map features rows) = Some T
    /\ out = map (fun r => final_row rows
                              (judge (fitted_on T) (features r)) r) rows.
Proof.
  rewrite calculate_fraud_scores_spec.
  destruct rows as [|r0 rows0] eqn:E; [discriminate|]. rewrite <- E.
  destruct (training_rows g (map features rows)) as [T|]; [|discriminate].
  intros H. exists T. split; [reflexivity|]. congruence.
Qed.

(** What is known of every row of a successful scoring pass. *)
Lemma scored_row_inv (g : RandState) (rows : list Row)
  (out : list ScoredRow) (sr : ScoredRow) :
  calc g rows = inr out -> In sr out ->
  In (txn sr) rows
  /\ cost_z_score sr = z_of cost_per_claim rows (txn sr)
  /\ claims_per_ben_z_score sr
     = z_of claims_per_beneficiary rows (txn sr)
  /\ is_cost_anomaly sr = Qltb 3 (cost_z_score sr)
  /\ is_volume_anomaly sr = Qltb 3 (claims_per_ben_z_score sr)
  /\ fraud_risk_score sr
     = Qmin 100 (if spend_flag (map paid rows) (paid (txn sr))
                 then accumulated sr + 15 else accumulated sr).
Proof.
  intros H Hin.
  apply calculate_fraud_scores_inr in H as (T & _ & ->).
  apply in_map_iff in Hin as (r & <- & Hr).
  unfold final_row.
  rewrite accumulated_composite_row.
  destruct (composite_row_fields (map paid rows)
              (flagged_row rows (judge (fitted_on T) (features r)) r))
    as (-> & -> & -> & -> & -> & _ & ->).
  repeat split; try reflexivity. exact Hr.
Qed.

(** The scoring pass produces one scored row per buffered row, in order. *)
Lemma scored_rows_txn (g : RandState) (rows : list Row)
  (out : list ScoredRow) :
  calc g rows = inr out -> map txn out = rows.
Proof.
  intros H.
  apply calculate_fraud_scores_inr in H as (T & _ & ->).
  rewrite map_map.
  erewrite map_ext; [apply map_id|].
  intros r. unfold final_row.
  now destruct (composite_row_fields (map paid rows)
                  (flagged_row rows
                     (judge (fitted_on T) (features r)) r)) as [-> _].
Qed.

(** On at most 100,000 rows the pass succeeds, and the state of the
    generator plays no part. *)
Lemma calculate_fraud_scores_small (g : RandState) (rows : list Row) :
  rows <> [] -> (N.of_nat (length rows) <= 100000)%N ->
  exists out,
    calc g rows = inr out
    /\ map txn out = rows
    /\ forall g', calc g' rows = inr out.
Proof.
  intros Hne Hle.
  assert (forall g0, training_rows g0 (map features rows)
                     = Some (map features rows)) as HT.
  { intros g0. unfold training_rows.
    rewrite length_map.
    destruct (100000 <? N.of_nat (length rows))%N eqn:E; [|reflexivity].
    apply N.ltb_lt in E. lia. }
  assert (forall g0,
             calc g0 rows
             = inr (map (fun r =>
                           final_row rows
                             (judge (fitted_on (map features rows))
                                (features r)) r) rows)) as Hrun.
  { intros g0.
    now rewrite calculate_fraud_scores_nonempty, HT by exact Hne. }
  eexists. split; [apply Hrun|]. split; [|exact Hrun].
  exact (scored_rows_txn g rows _ (Hrun g)).
Qed.

(** *** The composite score *)

Lemma score_decomposition (g : RandState) (rows : list Row)
  (out : list ScoredRow) (sr : ScoredRow) :
  calc g rows = inr out -> In sr out ->
  fraud_risk_score sr
  == Qmin 100 (0 + cost_contribution sr + volume_contribution sr
               + ml_contribution sr + spend_contribution rows sr).
Proof.
  intros H Hin.
  destruct (scored_row_inv g rows out sr H Hin) as (_ & _ & _ & _ & _ & ->).
  apply Q.min_compat; [reflexivity|].
  unfold spend_contribution.
  destruct (spend_flag _ _); rewrite accumulated_contributions; ring.
Qed.

(** C1.  Every row of a scoring pass has a composite score in [0, 100]:
    the score is [min(100, 0 + c1 + c2 + c3 + c4)] where the four
    contributions (capped cost z-score, capped volume z-score, ML flag,
    spend percentile) are each non-negative. *)
Theorem composite_score_in_range (g : RandState) (rows : list Row)
  (out : list ScoredRow) :
  calc g rows = inr out ->
  Forall (fun sr =>
            0 <= cost_contribution sr
            /\ 0 <= volume_contribution sr
            /\ 0 <= ml_contribution sr
            /\ 0 <= spend_contribution rows sr
            /\ fraud_risk_score sr
               == Qmin 100 (0 + cost_contribution sr + volume_contribution sr
                            + ml_contribution sr + spend_contribution rows sr)
            /\ 0 <= fraud_risk_score sr <= 100) out.
Proof.
  intros H. apply List.Forall_forall. intros sr Hin.
  pose proof (score_decomposition g rows out sr H Hin) as Hs.
  destruct (contributions_bounds rows sr) as (Hc & Hv & Hm & Hp).
  repeat split; try tauto; rewrite Hs;
    qmin_cases.
Qed.

(** C4.  A row on which all four contribution conditions hold (both
    z-scores above 3, the ML flag set, and the spend test
    [rank(pct=True) > 0.95] true) scores exactly
    [min(100, min(30, 5 z_cost) + min(30, 5 z_cpb) + 25 + 15)]. *)
Theorem all_four_contributions_score (g : RandState) (rows : list Row)
  (out : list ScoredRow) (sr : ScoredRow) :
  calc g rows = inr out -> In sr out ->
  3 < cost_z_score sr ->
  3 < claims_per_ben_z_score sr ->
  is_ml_anomaly sr = true ->
  95 # 100 < rank_pct_of (map paid rows) (paid (txn sr)) ->
  fraud_risk_score sr
  == Qmin 100 (Qmin 30 (5 * cost_z_score sr)
               + Qmin 30 (5 * claims_per_ben_z_score sr) + 25 + 15).
Proof.
  intros H Hin Hc Hv Hml Hp.
  rewrite (score_decomposition g rows out sr H Hin).
  unfold cost_contribution, volume_contribution, ml_contribution,
    spend_contribution, spend_flag.
  apply Qltb_lt in Hc, Hv, Hp. rewrite Hc, Hv, Hml, Hp.
  apply Q.min_compat; [reflexivity|].
  rewrite (Qmult_comm 5 (cost_z_score sr)),
    (Qmult_comm 5 (claims_per_ben_z_score sr)).
  ring.
Qed.

(** C5.  The cost flag of a scored row is set exactly when its cost
    z-score exceeds 3, and the volume flag exactly when its
    claims-per-beneficiary z-score exceeds 3; each flag is a function of
    its own z-score alone. *)
Theorem z_flags_iff (g : RandState) (rows : list Row)
  (out : list ScoredRow) (sr : ScoredRow) :
  calc g rows = inr out -> In sr out ->
  (is_cost_anomaly sr = true <-> 3 < cost_z_score sr)
  /\ (is_volume_anomaly sr = true <-> 3 < claims_per_ben_z_score sr).
Proof.
  intros H Hin.
  destruct (scored_row_inv g rows out sr H Hin) as (_ & _ & _ & -> & -> & _).
  split; apply Qltb_lt.
Qed.

(** C10.  A scored row with any of the three anomaly flags set has a
    composite score strictly above 15. *)
Theorem flagged_row_score_above_15 (g : RandState) (rows : list Row)
  (out : list ScoredRow) (sr : ScoredRow) :
  calc g rows = inr out -> In sr out ->
  is_cost_anomaly sr = true \/ is_volume_anomaly sr = true
  \/ is_ml_anomaly sr = true ->
  15 < fraud_risk_score sr.
Proof.
  intros H Hin Hflag.
  rewrite (score_decomposition g rows out sr H Hin).
  destruct (scored_row_inv g rows out sr H Hin)
    as (_ & _ & _ & Hic & Hiv & _).
  destruct (contributions_bounds rows sr) as (Bc & Bv & Bm & Bp).
  assert (15 < cost_contribution sr \/ 15 < volume_contribution sr
          \/ 15 < ml_contribution sr) as Hbig.
  { unfold cost_contribution, volume_contribution, ml_contribution.
    destruct Hflag as [F|[F|F]].
    - left. rewrite Hic in F. rewrite F.
      exact (proj1 (capped_contribution _ (proj1 (Qltb_lt _ _) F))).
    - right; left. rewrite Hiv in F. rewrite F.
      exact (proj1 (capped_contribution _ (proj1 (Qltb_lt _ _) F))).
    - right; right. rewrite F. lra. }
  qmin_cases.
Qed.

(** C6.  A row whose procedure code has fewer than 3 buffered rows has
    both z-scores 0 and neither z flag; and when the code has at least 3
    rows but the standard deviation of a metric over them is 0, the
    z-score of that metric is 0. *)
Theorem small_or_constant_code_zero_z (g : RandState) (rows : list Row)
  (out : list ScoredRow) (sr : ScoredRow) :
  calc g rows = inr out -> In sr out ->
  let grp := same_code rows (procedure_code (txn sr)) in
  ((length grp < 3)%nat ->
   cost_z_score sr = 0 /\ claims_per_ben_z_score sr = 0
   /\ is_cost_anomaly sr = false /\ is_volume_anomaly sr = false)
  /\ ((3 <= length grp)%nat ->
      std (map cost_per_claim grp) == 0 -> cost_z_score sr = 0)
  /\ ((3 <= length grp)%nat ->
      std (map claims_per_beneficiary grp) == 0 ->
      claims_per_ben_z_score sr = 0).
Proof.
  intros H Hin grp.
  destruct (scored_row_inv g rows out sr H Hin) as (_ & Hc & Hv & Hic & Hiv & _).
  rewrite Hic, Hiv, Hc, Hv. unfold z_of. fold grp.
  split; [|split].
  - intros Hlt. apply Nat.ltb_lt in Hlt. rewrite Hlt.
    repeat split; reflexivity.
  - intros _ Hs. destruct (length grp <? 3)%nat; [reflexivity|].
    destruct (Qltb 0 (std (map cost_per_claim grp))) eqn:E;
      [|reflexivity].
    apply Qltb_lt in E. lra.
  - intros _ Hs. destruct (length grp <? 3)%nat; [reflexivity|].
    destruct (Qltb 0 (std (map claims_per_beneficiary grp))) eqn:E;
      [|reflexivity].
    apply Qltb_lt in E. lra.
Qed.

(** C2, as the code has it.  The 15 points are added to a row's score
    exactly when its fractional average rank by paid amount,
    [(#smaller + (#equal + 1) / 2) / n], is strictly above 0.95, that is
    when [19 n < 10 (2 #smaller + #equal + 1)]. *)
Theorem spend_points_iff_rank_above_95 (g : RandState) (rows : list Row)
  (out : list ScoredRow) (sr : ScoredRow) :
  calc g rows = inr out -> In sr out ->
  let col := map paid rows in
  let x := paid (txn sr) in
  let less := Z.of_nat (length (List.filter (fun y => Qltb y x) col)) in
  let same := Z.of_nat (length (List.filter (fun y => Qeq_bool y x) col)) in
  let n := Z.of_nat (length col) in
  ((19 * n < 10 * (2 * less + same + 1))%Z ->
   fraud_risk_score sr == Qmin 100 (accumulated sr + 15))
  /\ (~ (19 * n < 10 * (2 * less + same + 1))%Z ->
      fraud_risk_score sr == Qmin 100 (accumulated sr))
  /\ (95 # 100 < rank_pct_of col x
      <-> (19 * n < 10 * (2 * less + same + 1))%Z).
Proof.
  intros H Hin col x less same n.
  destruct (scored_row_inv g rows out sr H Hin) as (Hr & _ & _ & _ & _ & ->).
  assert (0 < length col)%nat as Hn.
  { unfold col. rewrite length_map. destruct rows; [destruct Hr|simpl; lia]. }
  pose proof (rank_above_95_iff col x Hn) as Hiff. cbv zeta in Hiff.
  fold col x less same n in Hiff.
  unfold spend_flag. fold col x.
  split; [|split].
  - intros Hz. apply Hiff, Qltb_lt in Hz. rewrite Hz. reflexivity.
  - intros Hz. rewrite <- Hiff, <- Qltb_nlt in Hz. rewrite Hz. reflexivity.
  - exact Hiff.
Qed.

(** *** The sampling branch of the ML pass *)

Section SamplerContract.

(** What numpy documents of [choice(n, k, replace=False)] for [k <= n]:
    it returns [k] positions, all below [n]. *)
Hypothesis choice_length :
  forall g n k, (k <= n)%nat -> length (choice g n k) = k.
Hypothesis choice_range :
  forall g n k i, (k <= n)%nat -> In i (choice g n k) -> (i < n)%nat.



End SamplerContract.

(** C3, evaluated on the code.  The sample of the ML pass is drawn from
    the state of numpy's global generator, which the program never
    seeds (only the forest receives [random_state = 42]).  So on more
    than 100,000 distinct rows, two runs whose generator states draw
    different position sets are fitted on different row sets. *)
Theorem sample_depends_on_generator_state (g1 g2 : RandState)
  (rows : list Row) (i : nat) :
  (100000 < N.of_nat (length rows))%N ->
  List.NoDup (map features rows) ->
  (i < length rows)%nat ->
  In i (sample_indices g1 (map features rows)) ->
  ~ In i (sample_indices g2 (map features rows)) ->
  forall T1 T2,
    training_rows g1 (map features rows) = Some T1 ->
    training_rows g2 (map features rows) = Some T2 ->
    exists x, In x T1 /\ ~ In x T2.
Proof.
  intros Hbig Hnd Hi Hin1 Hnin2 T1 T2.
  set (X := map features rows) in *.
  unfold training_rows.
  assert ((100000 <? N.of_nat (length X))%N = true) as ->
      by (apply N.ltb_lt; unfold X; now rewrite length_map).
  intros HT1 HT2.
  assert (i < length X)%nat as HiX by (unfold X; now rewrite length_map).
  destruct (nth_error X i) as [x|] eqn:Hx;
    [|apply nth_error_None in Hx; lia].
  exists x. split.
  - apply (iloc_In _ _ _ x HT1). exists i. split; [exact Hin1|exact Hx].
  - intros Hc. apply (iloc_In _ _ _ x HT2) in Hc as (j & Hj & Hxj).
    assert (i = j) as <-; [|exact (Hnin2 Hj)].
    apply (proj1 (List.NoDup_nth_error X) Hnd i j HiX).
    now rewrite Hx, Hxj.
Qed.

End ScoringProofs.

(** ** The chunk loop: skipped chunks, and no exception *)

Lemma size_col_map_step (cols : list string) (m : gmap string string)
  (entry : string * list string) :
  (size (col_map_step cols m entry) <= S (size m))%nat
  /\ (first_alias cols (snd entry) = None ->
      size (col_map_step cols m entry) = size m).
Proof.
  unfold col_map_step.
  destruct (first_alias cols (snd entry)) as [name|]; [|split; [lia|easy]].
  split; [|discriminate].
  rewrite map_size_insert. destruct (m !! name); simpl; lia.
Qed.

Lemma size_col_map_fold (cols : list string) (entries : list (string * list string))
  (m : gmap string string) :
  (size (fold_left (col_map_step cols) entries m)
   <= size m + length entries)%nat
  /\ ((exists entry, In entry entries /\ first_alias cols (snd entry) = None) ->
      (size (fold_left (col_map_step cols) entries m)
       < size m + length entries)%nat).
Proof.
  revert m. induction entries as [|e entries IH]; intros m; simpl.
  - split; [lia|]. intros (entry & [] & _).
  - destruct (IH (col_map_step cols m e)) as [IHle IHlt].
    destruct (size_col_map_step cols m e) as [Hle Heq].
    split; [lia|].
    intros (entry & [<-|Hin] & Hnone).
    + rewrite (Heq Hnone) in IHle. lia.
    + assert (exists entry, In entry entries
                            /\ first_alias cols (snd entry) = None) as Hex
          by (exists entry; tauto).
      specialize (IHlt Hex). lia.
Qed.

Lemma first_alias_None (cols aliases : list string) :
  (forall name, In name aliases -> ~ In name cols) ->
  first_alias cols aliases = None.
Proof.
  intros H. unfold first_alias.
  destruct (find _ aliases) as [name|] eqn:E; [|reflexivity].
  apply find_some in E as [Hin Hdec].
  apply bool_decide_eq_true in Hdec. apply list_elem_of_In in Hdec.
  now destruct (H name Hin).
Qed.

Lemma normalize_chunk_missing (chunk : RawChunk) :
  missing_required_field chunk -> normalize_chunk chunk = inr None.
Proof.
  intros (target & aliases & Hin & Hnone).
  unfold normalize_chunk, build_col_map.
  destruct (size_col_map_fold (map upper (columns chunk)) required_cols ∅)
    as [_ Hlt].
  assert (size (fold_left (col_map_step (map upper (columns chunk)))
                  required_cols ∅) < length required_cols)%nat as Hsz.
  { rewrite map_size_empty in Hlt. apply Hlt.
    exists (target, aliases). split; [exact Hin|].
    now apply first_alias_None. }
  apply Nat.ltb_lt in Hsz. now rewrite Hsz.
Qed.

Lemma loop_body_missing (chunk : RawChunk) (d : Detector) :
  missing_required_field chunk -> loop_body d chunk = inr d.
Proof.
  intros H. unfold loop_body. now rewrite normalize_chunk_missing.
Qed.

Lemma first_alias_Some (cols aliases : list string) (a : string) :
  first_alias cols aliases = Some a -> In a aliases /\ In a cols.
Proof.
  unfold first_alias. intros H. apply find_some in H as [Hin Hdec].
  apply bool_decide_eq_true in Hdec. now apply list_elem_of_In in Hdec.
Qed.

Lemma col_map_fold_other (cols : list string)
  (entries : list (string * list string)) (m : gmap string string)
  (a : string) :
  ~ In a (concat (map snd entries)) ->
  fold_left (col_map_step cols) entries m !! a = m !! a.
Proof.
  revert m. induction entries as [|e entries IH]; intros m Hnot; simpl in *;
    [reflexivity|].
  rewrite in_app_iff in Hnot.
  rewrite IH by tauto. unfold col_map_step.
  destruct (first_alias cols (snd e)) as [a'|] eqn:E; [|reflexivity].
  apply first_alias_Some in E as [Ha' _].
  apply lookup_insert_ne. intros ->. tauto.
Qed.

Lemma col_map_fold_lookup (cols : list string)
  (entries : list (string * list string)) (m : gmap string string)
  (target a : string) (aliases : list string) :
  List.NoDup (concat (map snd entries)) ->
  In (target, aliases) entries ->
  first_alias cols aliases = Some a ->
  fold_left (col_map_step cols) entries m !! a = Some target.
Proof.
  revert m. induction entries as [|e entries IH]; intros m Hnd Hin Ha;
    simpl in *; [destruct Hin|].
  apply List.NoDup_app_remove_l in Hnd as Hnd'.
  destruct Hin as [->|Hin]; [|now apply IH].
  rewrite col_map_fold_other.
  - unfold col_map_step. simpl. rewrite Ha. apply lookup_insert_eq.
  - apply first_alias_Some in Ha as [Ha _]. simpl in Hnd.
    clear IH Hnd'. induction aliases as [|x aliases IHa]; [destruct Ha|].
    simpl in Hnd. inversion Hnd as [|? ? Hx Hnd']; subst.
    destruct Ha as [->|Ha]; [|now apply IHa].
    intros Hc. apply Hx, in_app_iff. now right.
Qed.

Lemma col_index_rename (col_map : gmap string string) (cols : list string)
  (target a : string) :
  In a cols -> col_map !! a = Some target ->
  exists i, col_index target (rename col_map cols) = Some i.
Proof.
  intros Hin Hm. induction cols as [|c cols IH]; [destruct Hin|]. simpl.
  destruct (bool_decide (default c (col_map !! c) = target)) eqn:E;
    [now exists O|].
  destruct Hin as [->|Hin].
  - rewrite Hm in E. simpl in E. now rewrite bool_decide_eq_true_2 in E.
  - destruct (IH Hin) as [i Hi]. exists (S i).
    fold (rename col_map cols). now rewrite Hi.
Qed.

Lemma required_aliases_distinct :
  List.NoDup (concat (map snd required_cols)).
Proof. apply NoDup_ListNoDup, (bool_decide_unpack _). vm_compute. exact I. Qed.

Lemma required_col_index (cols : list string) (target : string)
  (aliases : list string) :
  In (target, aliases) required_cols ->
  (length required_cols <= size (build_col_map cols))%nat ->
  exists i, col_index target (rename (build_col_map cols) cols) = Some i.
Proof.
  intros Hin Hsz.
  destruct (first_alias cols aliases) as [a|] eqn:Ha.
  - destruct (first_alias_Some _ _ _ Ha) as [_ Hcols].
    apply (col_index_rename _ _ _ a Hcols).
    exact (col_map_fold_lookup cols required_cols ∅ target a aliases
             required_aliases_distinct Hin Ha).
  - exfalso.
    destruct (size_col_map_fold cols required_cols ∅) as [_ Hlt].
    unfold build_col_map in Hsz. rewrite map_size_empty in Hlt.
    assert (exists entry, In entry required_cols
                          /\ first_alias cols (snd entry) = None) as Hex
        by (exists (target, aliases); split; assumption).
    specialize (Hlt Hex). lia.
Qed.

(** The body of the chunk loop raises no exception: once the alias test
    has passed, every canonical column is in the renamed header. *)
Lemma normalize_chunk_total (chunk : RawChunk) :
  exists rows, normalize_chunk chunk = inr rows.
Proof.
  unfold normalize_chunk.
  set (cols := map upper (columns chunk)).
  destruct (size (build_col_map cols) <? length required_cols)%nat eqn:E;
    [now eexists|].
  apply Nat.ltb_ge in E.
  assert (forall target aliases,
             In (target, aliases) required_cols ->
             exists i,
               col_index target (rename (build_col_map cols) cols) = Some i)
    as Hidx by (intros t al Hin; now apply (required_col_index cols t al)).
  destruct (Hidx "billing_npi"%string _ ltac:(simpl; eauto 8)) as [i1 ->].
  destruct (Hidx "servicing_npi"%string _ ltac:(simpl; eauto 8)) as [i2 ->].
  destruct (Hidx "procedure_code"%string _ ltac:(simpl; eauto 8)) as [i3 ->].
  destruct (Hidx "claim_month"%string _ ltac:(simpl; eauto 8)) as [i4 ->].
  destruct (Hidx "beneficiaries"%string _ ltac:(simpl; eauto 8)) as [i5 ->].
  destruct (Hidx "claims"%string _ ltac:(simpl; eauto 8)) as [i6 ->].
  destruct (Hidx "paid"%string _ ltac:(simpl; eauto 8)) as [i7 ->].
  destruct (length _ =? 0)%nat; now eexists.
Qed.

Lemma read_chunks_total (chunks : list RawChunk) (d : Detector) :
  exists d', read_chunks chunks d = inr d'.
Proof.
  revert d. induction chunks as [|chunk chunks IH]; intros d; simpl;
    [now exists d|].
  unfold loop_body.
  destruct (normalize_chunk_total chunk) as [[rows|] ->]; apply IH.
Qed.

(** C8.  A chunk that lacks a required field hands no row to the
    transaction buffer or to either accumulator and raises nothing: the
    detector is left as it was, so a run with the chunk anywhere in the
    file completes the chunk loop and ends as the run without it. *)
Theorem missing_field_chunk_is_skipped (chunk : RawChunk) :
  missing_required_field chunk ->
  chunk_rows chunk = []
  /\ (forall d, loop_body d chunk = inr d)
  /\ (forall before after d,
        read_chunks (before ++ chunk :: after) d
        = read_chunks (before ++ after) d
        /\ exists d', read_chunks (before ++ chunk :: after) d = inr d').
Proof.
  intros Hmiss. split; [|split].
  - unfold chunk_rows. now rewrite normalize_chunk_missing.
  - intros d. now apply loop_body_missing.
  - intros before after d. split; [|apply read_chunks_total].
    revert d. induction before as [|c before IH]; intros d; simpl.
    + now rewrite loop_body_missing.
    + destruct (loop_body d c); [reflexivity|apply IH].
Qed.

(** ** The provider rollup keeps a per-chunk maximum *)









Lemma update_provider_stats_nil (ps : gmap cell ProviderStats) :
  _update_provider_stats [] ps = ps.
Proof. reflexivity. Qed.

Lemma loop_body_provider_stats (d d' : Detector) (chunk : RawChunk) :
  loop_body d chunk = inr d' ->
  provider_stats d'
  = _update_provider_stats (chunk_rows chunk) (provider_stats d)
  /\ all_transactions d' = all_transactions d ++ chunk_rows chunk.
Proof.
  unfold loop_body, chunk_rows.
  destruct (normalize_chunk chunk) as [e|[rows|]]; [discriminate| |];
    intros [= <-]; simpl; [tauto|].
  now rewrite app_nil_r.
Qed.

(** The chunk loop feeds the provider rollup and the buffer with the
    validated rows of each chunk, in file order. *)
Lemma read_chunks_rollup (chunks : list RawChunk) (d d' : Detector) :
  read_chunks chunks d = inr d' ->
  provider_stats d' = rollup (map chunk_rows chunks) (provider_stats d)
  /\ all_transactions d'
     = all_transactions d ++ concat (map chunk_rows chunks).
Proof.
  revert d. induction chunks as [|chunk chunks IH]; intros d; simpl.
  - intros [= <-]. now rewrite app_nil_r.
  - destruct (loop_body d chunk) as [e|d1] eqn:E; [discriminate|].
    intros H. destruct (IH d1 H) as [-> ->].
    destruct (loop_body_provider_stats d d1 chunk E) as [-> ->].
    now rewrite app_assoc.
Qed.


(** * The theorems on example inputs *)

(** The three named rows are rows of the example result. *)
Lemma example_outlier_in : In example_outlier example_out.
Proof. apply nth_In. vm_compute. lia. Qed.

Lemma example_small_in : In example_small example_out.
Proof. apply nth_In. vm_compute. lia. Qed.

Lemma example_constant_in : In example_constant example_out.
Proof. apply nth_In. vm_compute. lia. Qed.

(** C1 on the example rows. *)
Lemma composite_score_in_range_witness :
  example_scores 0%nat example_rows = inr example_out
  /\ Forall (fun sr => 0 <= fraud_risk_score sr <= 100) example_out.
Proof.
  split; [run_example|].
  eapply List.Forall_impl;
    [|apply (composite_score_in_range sqrt_down nat offset_choice unit
               id_scaler_fit id_scaler_transform unit cut_forest_fit
               cut_forest_predict 0%nat example_rows example_out);
      run_example].
  intros sr H. apply H.
Defined.

(** C4 on the outlier of the example rows, which meets all four
    conditions. *)
Lemma all_four_contributions_score_witness :
  fraud_risk_score example_outlier
  == Qmin 100 (Qmin 30 (5 * cost_z_score example_outlier)
               + Qmin 30 (5 * claims_per_ben_z_score example_outlier)
               + 25 + 15).
Proof.
  apply (all_four_contributions_score sqrt_down nat offset_choice unit
           id_scaler_fit id_scaler_transform unit cut_forest_fit
           cut_forest_predict 0%nat example_rows example_out).
  - run_example.
  - exact example_outlier_in.
  - run_example.
  - run_example.
  - run_example.
  - run_example.
Defined.

(** C5 on the outlier of the example rows. *)
Lemma z_flags_iff_witness :
  (is_cost_anomaly example_outlier = true
   <-> 3 < cost_z_score example_outlier)
  /\ (is_volume_anomaly example_outlier = true
      <-> 3 < claims_per_ben_z_score example_outlier).
Proof.
  apply (z_flags_iff sqrt_down nat offset_choice unit id_scaler_fit
           id_scaler_transform unit cut_forest_fit cut_forest_predict
           0%nat example_rows example_out).
  - run_example.
  - exact example_outlier_in.
Defined.

(** C10 on the outlier of the example rows, whose cost flag is set. *)
Lemma flagged_row_score_above_15_witness :
  15 < fraud_risk_score example_outlier.
Proof.
  apply (flagged_row_score_above_15 sqrt_down nat offset_choice unit
           id_scaler_fit id_scaler_transform unit cut_forest_fit
           cut_forest_predict 0%nat example_rows example_out).
  - run_example.
  - exact example_outlier_in.
  - left. run_example.
Defined.

(** C6 on a row of the two-row code B and a row of the constant code C. *)
Lemma small_or_constant_code_zero_z_witness :
  (cost_z_score example_small = 0
   /\ claims_per_ben_z_score example_small = 0
   /\ is_cost_anomaly example_small = false
   /\ is_volume_anomaly example_small = false)
  /\ cost_z_score example_constant = 0
  /\ claims_per_ben_z_score example_constant = 0.
Proof.
  pose proof (small_or_constant_code_zero_z sqrt_down nat offset_choice unit
                id_scaler_fit id_scaler_transform unit cut_forest_fit
                cut_forest_predict 0%nat example_rows example_out) as H.
  assert (example_scores 0%nat example_rows = inr example_out) as Hrun
      by run_example.
  destruct (H example_small Hrun example_small_in) as (Hs & _ & _).
  destruct (H example_constant Hrun example_constant_in) as (_ & Hc & Hv).
  split; [apply Hs; vm_compute; lia|].
  split; [apply Hc|apply Hv]; try (vm_compute; lia); run_example.
Defined.

(** C2 on the outlier (rank 16 of 16) and on a row of code B (rank 11.5
    of 16). *)
Lemma spend_points_iff_rank_above_95_witness :
  fraud_risk_score example_outlier
  == Qmin 100 (accumulated example_outlier + 15)
  /\ fraud_risk_score example_small == Qmin 100 (accumulated example_small).
Proof.
  pose proof (spend_points_iff_rank_above_95 sqrt_down nat offset_choice unit
                id_scaler_fit id_scaler_transform unit cut_forest_fit
                cut_forest_predict 0%nat example_rows example_out) as H.
  assert (example_scores 0%nat example_rows = inr example_out) as Hrun
      by run_example.
  destruct (H example_outlier Hrun example_outlier_in) as (Hadd & _ & _).
  destruct (H example_small Hrun example_small_in) as (_ & Hskip & _).
  split; [apply Hadd; vm_compute; reflexivity|].
  apply Hskip. vm_compute. discriminate.
Defined.

(** C8 on a chunk whose header has no alias of [paid], between two
    valid chunks. *)
Lemma missing_field_chunk_is_skipped_witness :
  chunk_rows chunk_without_paid = []
  /\ read_chunks [chunk_A; chunk_without_paid; chunk_B] init_detector
     = read_chunks [chunk_A; chunk_B] init_detector.
Proof.
  destruct (missing_field_chunk_is_skipped chunk_without_paid)
    as (Hrows & _ & Hrun).
  - exists "paid"%string, ["TOTAL_PAID"; "PAID"; "AMOUNT"]%string.
    split; [simpl; tauto|].
    intros name Hname. vm_compute in Hname. vm_compute.
    intuition (subst; discriminate).
  - split; [exact Hrows|].
    exact (proj1 (Hrun [chunk_A] [chunk_B] init_detector)).
Defined.



Lemma offset_choice_range (g n k i : nat) :
  (k <= n)%nat -> In i (offset_choice g n k) -> (i < n)%nat.
Proof.
  intros Hk Hin. unfold offset_choice in Hin.
  apply in_map_iff in Hin as (j & <- & Hj). apply in_seq in Hj.
  apply Nat.mod_upper_bound. lia.
Qed.

Lemma big_rows_length : length big_rows = N.to_nat 100001.
Proof. unfold big_rows. now rewrite length_map, length_seq. Qed.

Lemma big_rows_over_limit : (100000 < N.of_nat (length big_rows))%N.
Proof. rewrite big_rows_length. lia. Qed.

Lemma big_rows_distinct : List.NoDup (map features big_rows).
Proof.
  unfold big_rows. rewrite map_map.
  apply Finite.Injective_map_NoDup; [|apply seq_NoDup].
  intros i j H.
  apply (f_equal (fun l => Qnum (nth 3 l 0))) in H. simpl in H. lia.
Qed.


(** C3 on 100,001 rows: the generator states 0 and 1 leave out
    different rows, so row 0 is fitted on in one run and not in the
    other. *)
Lemma sample_depends_on_generator_state_witness :
  exists T1 T2 x,
    training_rows nat offset_choice 0%nat (map features big_rows) = Some T1
    /\ training_rows nat offset_choice 1%nat (map features big_rows) = Some T2
    /\ In x T1 /\ ~ In x T2.
Proof.
  assert (length (map features big_rows) = N.to_nat 100001) as Hlen
      by (rewrite length_map; exact big_rows_length).
  assert (forall g, exists T,
             training_rows nat offset_choice g (map features big_rows)
             = Some T) as Hfit.
  { intros g. unfold training_rows.
    assert ((100000 <? N.of_nat (length (map features big_rows)))%N = true)
      as -> by (apply N.ltb_lt; rewrite Hlen; lia).
    apply iloc_Some. intros i Hi.
    apply (offset_choice_range g _ (N.to_nat 100000)); [|exact Hi].
    rewrite Hlen. lia. }
  destruct (Hfit 0%nat) as [T1 H1]. destruct (Hfit 1%nat) as [T2 H2].
  destruct (sample_depends_on_generator_state nat offset_choice
              0%nat 1%nat big_rows 0%nat) with (T1 := T1) (T2 := T2)
    as (x & Hx1 & Hx2).
  - exact big_rows_over_limit.
  - exact big_rows_distinct.
  - rewrite big_rows_length. lia.
  - unfold sample_indices, offset_choice. rewrite Hlen.
    apply in_map_iff. exists 0%nat. split.
    + rewrite Nat.add_0_r. apply Nat.Div0.mod_0_l.
    + apply in_seq. lia.
  - unfold sample_indices, offset_choice. rewrite Hlen.
    intros Hin. apply in_map_iff in Hin as (j & Hj & Hin).
    apply in_seq in Hin. rewrite Nat.mod_small in Hj by lia. lia.
  - exact H1.
  - exact H2.
  - exists T1, T2, x.
    split; [exact H1|]. split; [exact H2|]. split; [exact Hx1|exact Hx2].
Defined.

(** C2 as the spec words it fails.  In a population of two rows with
    the same paid amount every row is at the 95th percentile of paid
    amounts (any percentile of a constant population is that constant),
    yet no row receives the 15 points: both scores are 0.  And among
    twenty rows paid 1, 2, ..., 20 the row paid 19 is at the nearest-rank
    95th percentile, its fractional rank being exactly 0.95, and its
    score is 25, the ML contribution alone. *)
Lemma spend_points_at_percentile_counterexample :
  (exists out,
      example_scores 0%nat tied_rows = inr out
      /\ out <> []
      /\ Forall (fun sr =>
                   spec_at_or_above_p95 (map paid tied_rows) (paid (txn sr))
                   = true
                   /\ fraud_risk_score sr == 0) out)
  /\ (exists out sr,
        example_scores 0%nat ladder_rows = inr out
        /\ In sr out
        /\ paid (txn sr) == 19
        /\ rank_pct_of (map paid ladder_rows) (paid (txn sr)) == 95 # 100
        /\ spec_at_or_above_p95 (map paid ladder_rows) (paid (txn sr)) = true
        /\ fraud_risk_score sr == 25).
Proof.
  split.
  - destruct (example_scores 0%nat tied_rows) as [e|out] eqn:E;
      [vm_compute in E; discriminate|].
    exists out. split; [reflexivity|].
    vm_compute in E. injection E as <-.
    split; [discriminate|].
    repeat constructor.
  - destruct (example_scores 0%nat ladder_rows) as [e|out] eqn:E;
      [vm_compute in E; discriminate|].
    exists out, (nth 18 out (new_scored (example_row "" "" 0 0 0))).
    split; [reflexivity|].
    vm_compute in E. injection E as <-.
    split; [do 18 right; left; reflexivity|].
    repeat split.
Qed.

(** C4 as the spec words it fails.  Among ten ordinary rows, one outlier
    and three rows paid as much as the outlier, the outlier has both
    z-scores above 3 and the ML flag, and its paid amount is the largest
    of the population, hence at or above the 95th percentile of paid
    amounts however the percentile is computed.  The four rows paid the
    largest amount share the average rank 12.5 of 14, that is 25/28,
    which does not exceed 0.95: the 15 points are not added, and the
    score is the sum of the three other contributions, not the formula
    with [+ 15]. *)
Lemma all_four_conditions_counterexample :
  exists out sr,
    example_scores 0%nat top_tie_rows = inr out
    /\ In sr out
    /\ 3 < cost_z_score sr
    /\ 3 < claims_per_ben_z_score sr
    /\ is_ml_anomaly sr = true
    /\ Forall (fun y => y <= paid (txn sr)) (map paid top_tie_rows)
    /\ spec_at_or_above_p95 (map paid top_tie_rows) (paid (txn sr)) = true
    /\ rank_pct_of (map paid top_tie_rows) (paid (txn sr)) == 25 # 28
    /\ fraud_risk_score sr
       == Qmin 30 (5 * cost_z_score sr)
          + Qmin 30 (5 * claims_per_ben_z_score sr) + 25
    /\ ~ fraud_risk_score sr
         == Qmin 100 (Qmin 30 (5 * cost_z_score sr)
                      + Qmin 30 (5 * claims_per_ben_z_score sr) + 25 + 15).
Proof.
  destruct (example_scores 0%nat top_tie_rows) as [e|out] eqn:E;
    [vm_compute in E; discriminate|].
  exists out, (nth 10 out (new_scored (example_row "" "" 0 0 0))).
  split; [reflexivity|].
  vm_compute in E. injection E as <-.
  split; [do 10 right; left; reflexivity|].
  split; [run_example|]. split; [run_example|]. split; [reflexivity|].
  split; [repeat constructor; vm_compute; discriminate|].
  split; [reflexivity|]. split; [run_example|]. split; [run_example|].
  intros H. vm_compute in H. discriminate.
Qed.

(** * Further properties of the code *)

(** ** The transaction buffer *)

Lemma normalize_chunk_Some (chunk : RawChunk) (rows : list Row) :
  normalize_chunk chunk = inr (Some rows) ->
  exists cleaned, rows = map derive (List.filter row_valid cleaned).
Proof.
  unfold normalize_chunk.
  destruct (size _ <? length required_cols)%nat; [discriminate|].
  repeat match goal with
         | |- context [match col_index ?a ?b with _ => _ end] =>
             destruct (col_index a b); [|discriminate]
         end.
  destruct (length _ =? 0)%nat; [discriminate|].
  intros [= <-]. now eexists.
Qed.

Lemma derive_valid (c : CleanRow) : row_valid c = true -> valid_row (derive c).
Proof.
  unfold row_valid, valid_row. rewrite !andb_true_iff.
  intros [[[Hn Hp] Hc] Hb]. simpl.
  apply Qltb_lt in Hp. apply Z.ltb_lt in Hc, Hb.
  repeat split; try assumption.
  intros E. rewrite E in Hn. discriminate.
Qed.

Lemma chunk_rows_valid (chunk : RawChunk) : Forall valid_row (chunk_rows chunk).
Proof.
  unfold chunk_rows.
  destruct (normalize_chunk chunk) as [e|[rows|]] eqn:E; try constructor.
  apply normalize_chunk_Some in E as [cleaned ->].
  apply List.Forall_forall. intros r Hr.
  apply in_map_iff in Hr as (c & <- & Hc). apply filter_In in Hc as [_ Hc].
  now apply derive_valid.
Qed.

Lemma chunks_rows_valid (chunks : list RawChunk) :
  Forall valid_row (concat (map chunk_rows chunks)).
Proof.
  apply List.Forall_forall. intros r Hr.
  apply in_concat in Hr as (rows & Hrows & Hr).
  apply in_map_iff in Hrows as (chunk & <- & _).
  pose proof (chunk_rows_valid chunk) as Hv.
  rewrite List.Forall_forall in Hv. exact (Hv r Hr).
Qed.

(** X1.  Every row the chunk loop leaves in the transaction buffer has a
    provider id, a positive paid amount and positive claim and
    beneficiary counts, and carries the two derived metrics computed
    from exactly these values. *)
Theorem buffer_rows_are_valid (chunks : list RawChunk) (d : Detector) :
  read_chunks chunks init_detector = inr d ->
  Forall valid_row (all_transactions d).
Proof.
  intros H. destruct (read_chunks_rollup chunks init_detector d H) as [_ ->].
  simpl. apply chunks_rows_valid.
Qed.

(** ** The accumulators against the buffer *)

Lemma NoDup_unique (l : list cell) : List.NoDup (unique l).
Proof.
  induction l as [|x l IH]; simpl; constructor.
  - intros Hin. apply filter_In in Hin as [_ Hne].
    apply negb_true_iff, bool_decide_eq_false in Hne. congruence.
  - now apply List.NoDup_filter.
Qed.

(** A loop that rewrites the entry of each key of a duplicate-free list
    from its previous value touches every listed key once. *)
Lemma fold_upsert_lookup {V : Type} (f : cell -> option V -> V)
  (keys : list cell) (m : gmap cell V) (k : cell) :
  List.NoDup keys ->
  fold_left (fun m c => <[c := f c (m !! c)]> m) keys m !! k
  = if existsb (fun c => bool_decide (c = k)) keys
    then Some (f k (m !! k)) else m !! k.
Proof.
  revert m. induction keys as [|c keys IH]; intros m Hnd; simpl;
    [reflexivity|].
  inversion Hnd as [|? ? Hc Hnd']; subst. rewrite (IH _ Hnd').
  destruct (decide (c = k)) as [->|Hne].
  - rewrite bool_decide_eq_true_2 by reflexivity. simpl.
    assert (existsb (fun c => bool_decide (c = k)) keys = false) as ->.
    { apply not_true_is_false. intros E. apply existsb_exists in E as (x & Hx & E).
      apply bool_decide_eq_true in E. now subst. }
    apply lookup_insert_eq.
  - rewrite bool_decide_eq_false_2 by exact Hne. simpl.
    now rewrite lookup_insert_ne.
Qed.

Lemma benchmark_step_upsert (chunk : list Row) (bm : gmap cell Benchmark)
  (c : cell) :
  benchmark_step chunk bm c
  = <[c := extend (default new_benchmark (bm !! c)) (same_code chunk c)]> bm.
Proof.
  unfold benchmark_step, extend, same_code, new_benchmark.
  destruct (bm !! c) as [b|] eqn:E; simpl.
  - now rewrite E.
  - now rewrite lookup_insert_eq, insert_insert_eq.
Qed.

Lemma update_benchmarks_full (chunk : list Row) (bm : gmap cell Benchmark)
  (k : cell) :
  _update_benchmarks chunk bm !! k
  = if existsb (fun c => bool_decide (c = k)) (unique (map procedure_code chunk))
    then Some (extend (default new_benchmark (bm !! k)) (same_code chunk k))
    else bm !! k.
Proof.
  unfold _update_benchmarks.
  set (keys := unique _).
  rewrite <- (fold_upsert_lookup
                (fun c o => extend (default new_benchmark o) (same_code chunk c))
                keys bm k (NoDup_unique _)).
  f_equal. clear. revert bm.
  induction keys as [|c keys IH]; intros bm; simpl; [reflexivity|].
  now rewrite benchmark_step_upsert, IH.
Qed.

Lemma Qsum_from (l : list Q) (a : Q) : fold_left Qplus l a == a + Qsum l.
Proof.
  unfold Qsum. revert a. induction l as [|x l IH]; intros a; simpl; [ring|].
  rewrite IH, (IH (0 + x)). ring.
Qed.

Lemma Qsum_app (l1 l2 : list Q) : Qsum (l1 ++ l2) == Qsum l1 + Qsum l2.
Proof. unfold Qsum at 1. rewrite fold_left_app, Qsum_from. reflexivity. Qed.

Lemma Qsum_cons (x : Q) (l : list Q) : Qsum (x :: l) == x + Qsum l.
Proof. change (x :: l) with ([x] ++ l). rewrite Qsum_app. unfold Qsum at 1. simpl. ring. Qed.


Lemma same_code_app (k : cell) (l1 l2 : list Row) :
  same_code (l1 ++ l2) k = same_code l1 k ++ same_code l2 k.
Proof. apply List.filter_app. Qed.





Lemma values_match_extend (buf chunk : list Row) (k : cell)
  (o : option Benchmark) :
  match o with
  | Some b => values_match (same_code buf k) b
  | None => same_code buf k = []
  end ->
  values_match (same_code (buf ++ chunk) k)
    (extend (default new_benchmark o) (same_code chunk k)).
Proof.
  intros H. rewrite same_code_app. unfold values_match, extend. simpl.
  rewrite !map_app.
  destruct o as [b|]; simpl.
  - destruct H as (-> & ->). split; reflexivity.
  - rewrite H. split; reflexivity.
Qed.

Lemma code_not_listed (k : cell) (chunk : list Row) :
  existsb (fun c => bool_decide (c = k)) (unique (map procedure_code chunk))
  = false ->
  same_code chunk k = [].
Proof.
  intros H. unfold same_code.
  induction chunk as [|r chunk IH]; simpl; [reflexivity|].
  destruct (cell_eqb (procedure_code r) k) eqn:E.
  - exfalso. apply cell_eqb_eq in E.
    assert (existsb (fun c => bool_decide (c = k))
              (unique (map procedure_code (r :: chunk))) = true) as H';
      [|congruence].
    apply existsb_exists. exists k. split; [|now apply bool_decide_eq_true].
    apply (proj2 (in_unique _ _)). left. exact E.
  - apply IH. apply not_true_is_false. intros H'.
    apply existsb_exists in H' as (c & Hc & Hck).
    assert (existsb (fun c => bool_decide (c = k))
              (unique (map procedure_code (r :: chunk))) = true) as H'';
      [|congruence].
    apply existsb_exists. exists c. split; [|exact Hck].
    apply (proj2 (in_unique _ _)). right.
    exact (proj1 (in_unique _ _) Hc).
Qed.

(** The benchmark accumulator against the rows it has observed. *)
Lemma benchmarks_values (chunks : list (list Row)) (buf : list Row)
  (bm : gmap cell Benchmark) :
  (forall k, match bm !! k with
             | Some b => values_match (same_code buf k) b
             | None => same_code buf k = []
             end) ->
  forall k,
    match fold_left (fun bm chunk => _update_benchmarks chunk bm) chunks bm !! k
    with
    | Some b => values_match (same_code (buf ++ concat chunks) k) b
    | None => same_code (buf ++ concat chunks) k = []
    end.
Proof.
  revert buf bm. induction chunks as [|chunk chunks IH]; intros buf bm Hinv k;
    simpl.
  - rewrite app_nil_r. apply Hinv.
  - rewrite app_assoc. apply IH. clear k. intros k.
    rewrite update_benchmarks_full. specialize (Hinv k).
    destruct (existsb _ _) eqn:Hs.
    + now apply values_match_extend.
    + rewrite same_code_app, (code_not_listed _ _ Hs), app_nil_r. exact Hinv.
Qed.

Lemma loop_body_benchmarks (d d' : Detector) (chunk : RawChunk) :
  loop_body d chunk = inr d' ->
  procedure_benchmarks d'
  = _update_benchmarks (chunk_rows chunk) (procedure_benchmarks d).
Proof.
  unfold loop_body, chunk_rows.
  destruct (normalize_chunk chunk) as [e|[rows|]]; [discriminate| |];
    now intros [= <-].
Qed.

Lemma read_chunks_benchmarks (chunks : list RawChunk) (d d' : Detector) :
  read_chunks chunks d = inr d' ->
  procedure_benchmarks d'
  = fold_left (fun bm chunk => _update_benchmarks chunk bm)
      (map chunk_rows chunks) (procedure_benchmarks d).
Proof.
  revert d. induction chunks as [|chunk chunks IH]; intros d; simpl.
  - now intros [= <-].
  - destruct (loop_body d chunk) as [e|d1] eqn:E; [discriminate|].
    intros H. rewrite (IH d1 H). now rewrite (loop_body_benchmarks d d1 chunk E).
Qed.

(** X4.  After the chunk loop, the benchmark entry of a procedure code
    holds the cost-per-claim and claims-per-beneficiary values of the
    buffered rows of that code, in buffer order, and a code without an
    entry has no buffered row. *)
Theorem benchmarks_are_buffer_values (chunks : list RawChunk) (d : Detector)
  (code : cell) :
  read_chunks chunks init_detector = inr d ->
  match procedure_benchmarks d !! code with
  | Some b => values_match (same_code (all_transactions d) code) b
  | None => same_code (all_transactions d) code = []
  end.
Proof.
  intros H. rewrite (read_chunks_benchmarks chunks init_detector d H).
  destruct (read_chunks_rollup chunks init_detector d H) as [_ ->].
  apply benchmarks_values. intros k. simpl. now rewrite lookup_empty.
Qed.




(** ** The schema test of the chunk loop *)

Lemma first_alias_None_inv (cols aliases : list string) :
  first_alias cols aliases = None ->
  forall name, In name aliases -> ~ In name cols.
Proof.
  unfold first_alias. intros H name Hin Hcols.
  pose proof (find_none _ _ H name Hin) as Hf. simpl in Hf.
  apply bool_decide_eq_false in Hf. apply Hf. now apply list_elem_of_In.
Qed.

Lemma size_col_map_fold_resolved (cols : list string)
  (entries : list (string * list string)) (m : gmap string string) :
  List.NoDup (concat (map snd entries)) ->
  (forall a, In a (concat (map snd entries)) -> m !! a = None) ->
  (forall e, In e entries -> first_alias cols (snd e) <> None) ->
  size (fold_left (col_map_step cols) entries m)
  = (size m + length entries)%nat.
Proof.
  revert m. induction entries as [|e entries IH]; intros m Hnd Hfresh Hres;
    simpl in *; [lia|].
  apply NoDup_ListNoDup, NoDup_app in Hnd as (_ & Hdisj & Hnd').
  apply NoDup_ListNoDup in Hnd'.
  unfold col_map_step at 2.
  destruct (first_alias cols (snd e)) as [a|] eqn:Ha;
    [|now destruct (Hres e (or_introl eq_refl))].
  apply first_alias_Some in Ha as [Ha _].
  rewrite IH; [| exact Hnd' | | intros e' He'; apply Hres; now right].
  - rewrite map_size_insert, (Hfresh a) by (apply in_app_iff; now left). lia.
  - intros a' Ha'. rewrite lookup_insert_ne.
    + apply Hfresh, in_app_iff. now right.
    + intros ->. apply (Hdisj a'); now apply list_elem_of_In.
Qed.

(** X7.  The schema test [len(col_map) < len(required_cols)] of the
    chunk loop holds exactly when some required field has none of its
    aliases in the upper-cased header: a chunk is skipped for its header
    in that case and in no other. *)
Theorem schema_test_iff_missing_field (chunk : RawChunk) :
  (size (build_col_map (map upper (columns chunk)))
   <? length required_cols)%nat = true
  <-> missing_required_field chunk.
Proof.
  set (cols := map upper (columns chunk)).
  split.
  - intros Htest. apply Nat.ltb_lt in Htest.
    destruct (forallb (fun e => match first_alias cols (snd e) with
                                | Some _ => true | None => false end)
                required_cols) eqn:E.
    + exfalso. unfold build_col_map in Htest.
      rewrite size_col_map_fold_resolved in Htest.
      * rewrite map_size_empty in Htest. lia.
      * exact required_aliases_distinct.
      * intros a _. apply lookup_empty.
      * intros e He Hnone. rewrite forallb_forall in E.
        specialize (E e He). now rewrite Hnone in E.
    + assert (exists e, In e required_cols
                        /\ first_alias cols (snd e) = None) as (e & He & Hn).
      { clear Htest. induction required_cols as [|e l IH]; [discriminate|].
        simpl in E. destruct (first_alias cols (snd e)) eqn:Ha.
        - destruct (IH E) as (e' & He' & Hn). exists e'. split; [now right|exact Hn].
        - exists e. split; [now left|exact Ha]. }
      destruct e as [target aliases]. exists target, aliases.
      split; [exact He|]. now apply first_alias_None_inv.
  - intros (target & aliases & Hin & Hnone).
    destruct (size_col_map_fold cols required_cols ∅) as [_ Hlt].
    apply Nat.ltb_lt. unfold build_col_map.
    rewrite map_size_empty in Hlt. apply Hlt.
    exists (target, aliases). split; [exact Hin|].
    now apply first_alias_None.
Qed.

(** X6.  Once the schema test has passed, each canonical column is
    present in the renamed header: none of the column lookups of the
    loop body raises KeyError. *)
Theorem renamed_header_has_every_field (cols : list string)
  (target : string) (aliases : list string) :
  In (target, aliases) required_cols ->
  (size (build_col_map cols) <? length required_cols)%nat = false ->
  exists i, col_index target (rename (build_col_map cols) cols) = Some i.
Proof.
  intros Hin Htest. apply Nat.ltb_ge in Htest.
  exact (required_col_index cols target aliases Hin Htest).
Qed.

(** ** The scoring pass, further *)

Lemma count_less_same (col : list Q) (x y : Q) :
  x < y ->
  (length (List.filter (fun z => Qltb z x) col)
   + length (List.filter (fun z => Qeq_bool z x) col)
   <= length (List.filter (fun z => Qltb z y) col))%nat.
Proof.
  intros Hxy. induction col as [|z col IH]; simpl; [lia|].
  destruct (Qltb z x) eqn:E1; destruct (Qeq_bool z x) eqn:E2;
    destruct (Qltb z y) eqn:E3; simpl; try lia; exfalso;
    rewrite ?Qltb_lt, ?Qltb_nlt in *;
    try apply Qeq_bool_iff in E2; try lra.
Qed.

Lemma rank_pct_of_mono (col : list Q) (x y : Q) :
  (0 < length col)%nat -> x <= y -> rank_pct_of col x <= rank_pct_of col y.
Proof.
  intros Hn Hxy.
  assert (0 < inject_Z (Z.of_nat (length col))) as Hpos.
  { change 0 with (inject_Z 0). rewrite <- Zlt_Qlt. lia. }
  unfold rank_pct_of.
  apply Qmult_le_compat_r; [|apply Qlt_le_weak, Qinv_lt_0_compat, Hpos].
  destruct (Qlt_le_dec x y) as [Hlt|Hge].
  - pose proof (count_less_same col x y Hlt) as Hc.
    apply Nat2Z.inj_le in Hc. rewrite Nat2Z.inj_add in Hc.
    rewrite Zle_Qle, inject_Z_plus in Hc.
    assert (0 <= inject_Z (Z.of_nat
                             (length (List.filter (fun z => Qeq_bool z x) col))))
      as H0 by (change 0 with (inject_Z 0); rewrite <- Zle_Qle; lia).
    assert (0 <= inject_Z (Z.of_nat
                             (length (List.filter (fun z => Qeq_bool z y) col))))
      as H1 by (change 0 with (inject_Z 0); rewrite <- Zle_Qle; lia).
    change ((?a + 1) / 2) with ((a + 1) * (1 # 2)).
    lra.
  - assert (x == y) as E by lra.
    assert (List.filter (fun z => Qltb z x) col
            = List.filter (fun z => Qltb z y) col) as ->.
    { apply filter_ext. intros z. unfold Qltb. now rewrite E. }
    assert (List.filter (fun z => Qeq_bool z x) col
            = List.filter (fun z => Qeq_bool z y) col) as ->.
    { apply filter_ext. intros z. now rewrite E. }
    lra.
Qed.

Lemma count_less_same_total (col : list Q) (x : Q) :
  (length (List.filter (fun z => Qltb z x) col)
   + length (List.filter (fun z => Qeq_bool z x) col)
   <= length col)%nat.
Proof.
  induction col as [|z col IH]; simpl; [lia|].
  destruct (Qltb z x) eqn:E1; destruct (Qeq_bool z x) eqn:E2; simpl; try lia.
  exfalso. apply Qltb_lt in E1. apply Qeq_bool_iff in E2. lra.
Qed.

Lemma count_same_pos (col : list Q) (x : Q) :
  In x col -> (1 <= length (List.filter (fun z => Qeq_bool z x) col))%nat.
Proof.
  intros Hin.
  assert (In x (List.filter (fun z => Qeq_bool z x) col)) as H.
  { apply filter_In. split; [exact Hin|]. apply Qeq_bool_iff. reflexivity. }
  destruct (List.filter _ col); [destruct H|simpl; lia].
Qed.

(** ** The reports *)

Lemma Qsum_bounds (l : list Q) (a b : Q) :
  List.Forall (fun x => a <= x <= b) l ->
  inject_Z (Z.of_nat (length l)) * a <= Qsum l
  /\ Qsum l <= inject_Z (Z.of_nat (length l)) * b.
Proof.
  induction 1 as [|x l Hx _ IH].
  - unfold Qsum. simpl. rewrite !Qmult_0_l. lra.
  - cbn [length]. rewrite Qsum_cons, Nat2Z.inj_succ. unfold Z.succ.
    rewrite inject_Z_plus. change (inject_Z 1) with 1.
    rewrite !Qmult_plus_distr_l, !Qmult_1_l.
    set (na := inject_Z (Z.of_nat (length l)) * a) in *.
    set (nb := inject_Z (Z.of_nat (length l)) * b) in *. lra.
Qed.

Lemma mean_bounds (l : list Q) (a b : Q) :
  l <> [] -> List.Forall (fun x => a <= x <= b) l -> a <= mean l <= b.
Proof.
  intros Hne Hall. destruct (Qsum_bounds l a b Hall) as [Hlo Hhi].
  assert (0 < inject_Z (Z.of_nat (length l))) as Hn.
  { change 0 with (inject_Z 0). rewrite <- Zlt_Qlt.
    destruct l; [congruence|simpl; lia]. }
  unfold mean. split.
  - apply Qle_shift_div_l; [exact Hn|]. now rewrite Qmult_comm.
  - apply Qle_shift_div_r; [exact Hn|]. now rewrite Qmult_comm.
Qed.

Lemma mean_gt_exists (l : list Q) (b : Q) :
  l <> [] -> b < mean l -> exists x, In x l /\ b < x.
Proof.
  intros Hne Hmean.
  assert (forall x, {x <= b} + {~ x <= b}) as Hdec.
  { intros x. destruct (Qlt_le_dec b x) as [H|H]; [right|left; exact H].
    now apply Qlt_not_le. }
  destruct (List.Forall_Exists_dec (fun x => x <= b) Hdec l) as [Hall|Hex].
  - exfalso.
    assert (List.Forall (fun x => mean l - 1 <= x <= b) l -> False) as Hno.
    { intros Hb. pose proof (mean_bounds l _ _ Hne Hb). lra. }
    assert (exists a, List.Forall (fun x => a <= x <= b) l) as [a Ha].
    { clear Hne Hmean Hno. induction Hall as [|x l Hx _ [a IH]].
      - exists 0. constructor.
      - exists (Qmin a x). constructor.
        + split; [apply Q.le_min_r|exact Hx].
        + eapply List.Forall_impl; [|exact IH]. intros y [Hy1 Hy2].
          split; [|exact Hy2].
          apply (Qle_trans _ a); [apply Q.le_min_l|exact Hy1]. }
    pose proof (mean_bounds l a b Hne Ha). lra.
  - apply List.Exists_exists in Hex as (x & Hx & Hnle).
    exists x. split; [exact Hx|]. now apply Qnot_le_lt.
Qed.

Lemma count_true_bounds (l : list bool) :
  (0 <= count_true l <= Z.of_nat (length l))%Z.
Proof.
  unfold count_true. pose proof (List.filter_length_le (fun b : bool => b) l).
  lia.
Qed.


Section ScoringFurther.

Variable sqrtQ : Q -> Q.
Variable RandState : Type.
Variable choice : RandState -> nat -> nat -> list nat.
Variable Scaler : Type.
Variable scaler_fit : list (list Q) -> Scaler.
Variable scaler_transform : Scaler -> list Q -> list Q.
Variable Forest : Type.
Variable forest_fit : Q -> Z -> list (list Q) -> Forest.
Variable forest_predict : Forest -> list Q -> Z.

Abbreviation std := (std sqrtQ).
Abbreviation z_of := (z_of sqrtQ).
Abbreviation calc :=
  (_calculate_fraud_scores sqrtQ RandState choice Scaler scaler_fit
     scaler_transform Forest forest_fit forest_predict).
Abbreviation scored_frame :=
  (scored_frame sqrtQ RandState choice Scaler scaler_fit
     scaler_transform Forest forest_fit forest_predict).
Abbreviation process_file :=
  (process_file sqrtQ RandState choice Scaler scaler_fit
     scaler_transform Forest forest_fit forest_predict).
Abbreviation row_inv :=
  (scored_row_inv sqrtQ RandState choice Scaler scaler_fit
     scaler_transform Forest forest_fit forest_predict).
Abbreviation decomposition :=
  (score_decomposition sqrtQ RandState choice Scaler scaler_fit
     scaler_transform Forest forest_fit forest_predict).
Abbreviation rows_txn :=
  (scored_rows_txn sqrtQ RandState choice Scaler scaler_fit
     scaler_transform Forest forest_fit forest_predict).

(** X2.  The scoring pass of a run scores the validated rows of the
    chunks, all of them and in file order: no row is lost, added or
    moved between validation and scoring. *)
Theorem scored_rows_are_validated_rows (g : RandState)
  (chunks : list RawChunk) (out : list ScoredRow) :
  scored_frame g chunks = inr out ->
  map txn out = concat (map chunk_rows chunks)
  /\ Forall (fun sr => valid_row (txn sr)) out.
Proof.
  unfold scored_frame.
  destruct (read_chunks chunks init_detector) as [e|d] eqn:E; [discriminate|].
  intros H.
  destruct (read_chunks_rollup chunks init_detector d E) as [_ Hbuf].
  simpl in Hbuf. pose proof (rows_txn g _ out H) as Htxn.
  split; [now rewrite Htxn, Hbuf|].
  pose proof (chunks_rows_valid chunks) as Hv.
  rewrite <- Hbuf, <- Htxn in Hv. rewrite List.Forall_forall in *.
  intros sr Hsr. apply Hv. now apply in_map.
Qed.

(** X13.  A run whose chunks yield no valid row (an empty file, a
    header without some required column, or only invalid rows) reports
    failure: [process_file] returns [False]. *)
Theorem run_fails_without_valid_rows (g : RandState)
  (chunks : list RawChunk) :
  concat (map chunk_rows chunks) = [] -> process_file g chunks = false.
Proof.
  intros Hnil. unfold process_file, scored_frame.
  destruct (read_chunks_total chunks init_detector) as [d E]. rewrite E.
  destruct (read_chunks_rollup chunks init_detector d E) as [_ Hbuf].
  simpl in Hbuf. rewrite Hnil in Hbuf. rewrite Hbuf. reflexivity.
Qed.

Lemma score_sum (g : RandState) (rows : list Row)
  (out : list ScoredRow) (sr : ScoredRow) :
  calc g rows = inr out -> In sr out ->
  fraud_risk_score sr
  == cost_contribution sr + volume_contribution sr + ml_contribution sr
     + spend_contribution rows sr.
Proof.
  intros H Hin. rewrite (decomposition g rows out sr H Hin).
  destruct (contributions_bounds rows sr) as (Hc & Hv & Hm & Hp).
  destruct (Q.min_spec 100
              (0 + cost_contribution sr + volume_contribution sr
               + ml_contribution sr + spend_contribution rows sr))
    as [[Hlt ->]|[Hle ->]]; lra.
Qed.

(** X10.  The final [min(100, .)] never changes a score: the four
    contributions add up to at most 30 + 30 + 25 + 15, so the score of
    every row is exactly their sum. *)
Theorem score_is_sum_of_contributions (g : RandState) (rows : list Row)
  (out : list ScoredRow) (sr : ScoredRow) :
  calc g rows = inr out -> In sr out ->
  fraud_risk_score sr
  == cost_contribution sr + volume_contribution sr + ml_contribution sr
     + spend_contribution rows sr.
Proof. exact (score_sum g rows out sr). Qed.

Lemma score_thresholds (g : RandState) (rows : list Row)
  (out : list ScoredRow) (sr : ScoredRow) :
  calc g rows = inr out -> In sr out ->
  (75 < fraud_risk_score sr ->
   is_cost_anomaly sr = true /\ is_volume_anomaly sr = true
   /\ is_ml_anomaly sr = true)
  /\ (85 < fraud_risk_score sr ->
      spend_flag (map paid rows) (paid (txn sr)) = true).
Proof.
  intros H Hin.
  pose proof (decomposition g rows out sr H Hin) as Hs.
  destruct (row_inv g rows out sr H Hin) as (_ & _ & _ & Hic & Hiv & _).
  destruct (contributions_bounds rows sr) as (Hc & Hv & Hm & Hp).
  assert (fraud_risk_score sr
          <= 0 + cost_contribution sr + volume_contribution sr
             + ml_contribution sr + spend_contribution rows sr) as Hle.
  { rewrite Hs. apply Q.le_min_r. }
  clear Hs. rewrite Hic, Hiv.
  unfold cost_contribution, volume_contribution, ml_contribution,
    spend_contribution in *.
  split.
  - intros Hhigh.
    destruct (Qltb 3 (cost_z_score sr));
      destruct (Qltb 3 (claims_per_ben_z_score sr));
      destruct (is_ml_anomaly sr);
      try (repeat split; reflexivity); exfalso; lra.
  - intros Hhigh.
    destruct (spend_flag (map paid rows) (paid (txn sr)));
      [reflexivity|exfalso; lra].
Qed.

(** X11.  A score above 75 (a "high-risk" transaction) is only reached
    with all three anomaly flags set, and a score above 85 only with the
    spend points as well. *)
Theorem high_score_needs_all_flags (g : RandState) (rows : list Row)
  (out : list ScoredRow) (sr : ScoredRow) :
  calc g rows = inr out -> In sr out ->
  (75 < fraud_risk_score sr ->
   is_cost_anomaly sr = true /\ is_volume_anomaly sr = true
   /\ is_ml_anomaly sr = true)
  /\ (85 < fraud_risk_score sr ->
      spend_flag (map paid rows) (paid (txn sr)) = true).
Proof. exact (score_thresholds g rows out sr). Qed.

(** X9.  The z flags are one-sided.  A row with the cost flag belongs
    to a code with at least 3 buffered rows and a positive standard
    deviation, and its cost per claim is above the mean of that code; the
    same holds for the volume flag and claims per beneficiary.  A row
    below its code's mean is never flagged, however far below. *)
Theorem z_flag_only_above_mean (g : RandState) (rows : list Row)
  (out : list ScoredRow) (sr : ScoredRow) :
  calc g rows = inr out -> In sr out ->
  let grp := same_code rows (procedure_code (txn sr)) in
  (is_cost_anomaly sr = true ->
   (3 <= length grp)%nat
   /\ 0 < std (map cost_per_claim grp)
   /\ mean (map cost_per_claim grp) < cost_per_claim (txn sr))
  /\ (is_volume_anomaly sr = true ->
      (3 <= length grp)%nat
      /\ 0 < std (map claims_per_beneficiary grp)
      /\ mean (map claims_per_beneficiary grp)
         < claims_per_beneficiary (txn sr)).
Proof.
  intros H Hin grp.
  destruct (row_inv g rows out sr H Hin) as (_ & Hc & Hv & Hic & Hiv & _).
  rewrite Hic, Hiv, Hc, Hv. unfold z_of. fold grp.
  split; intros Hflag; apply Qltb_lt in Hflag;
    destruct (length grp <? 3)%nat eqn:El; try lra;
    apply Nat.ltb_ge in El;
    match type of Hflag with
    | context [Qltb 0 ?s] => destruct (Qltb 0 s) eqn:Es; try lra
    end;
    apply Qltb_lt in Es; (split; [exact El|]); (split; [exact Es|]);
    match type of Hflag with
    | 3 < ?a / ?s =>
        assert (3 * s < a) as Hm
            by (apply (Qmult_lt_r _ _ (/ s));
                [now apply Qinv_lt_0_compat|];
                rewrite <- (Qmult_assoc 3), Qmult_inv_r by lra;
                rewrite Qmult_1_r; exact Hflag)
    end; lra.
Qed.

(** X12.  The spend points are monotone in the paid amount: a row paid
    at least as much as a row that receives the 15 points receives them
    too.  And a row paid strictly more than every other row always
    receives them, whatever the size of the population. *)
Theorem spend_points_monotone (g : RandState) (rows : list Row)
  (out : list ScoredRow) (sr : ScoredRow) :
  calc g rows = inr out -> In sr out ->
  (forall sr', In sr' out ->
               paid (txn sr') <= paid (txn sr) ->
               spend_contribution rows sr' <= spend_contribution rows sr)
  /\ (length (List.filter (fun y => Qltb y (paid (txn sr))) (map paid rows))
      = pred (length rows) ->
      spend_contribution rows sr == 15).
Proof.
  intros H Hin.
  destruct (row_inv g rows out sr H Hin) as (Hr & _).
  assert (0 < length (map paid rows))%nat as Hn.
  { rewrite length_map. destruct rows; [destruct Hr|simpl; lia]. }
  unfold spend_contribution, spend_flag. split.
  - intros sr' _ Hle.
    pose proof (rank_pct_of_mono (map paid rows) _ _ Hn Hle) as Hmono.
    destruct (Qltb (95 # 100) (rank_pct_of (map paid rows) (paid (txn sr'))))
      eqn:E1;
      destruct (Qltb (95 # 100) (rank_pct_of (map paid rows) (paid (txn sr))))
        eqn:E2; try lra.
    apply Qltb_lt in E1. apply Qltb_nlt in E2. lra.
  - intros Hless.
    pose proof (count_less_same_total (map paid rows) (paid (txn sr))) as Htot.
    pose proof (count_same_pos (map paid rows) (paid (txn sr))
                  (in_map paid rows (txn sr) Hr)) as Hsame.
    rewrite length_map in Hn, Htot.
    assert (length (List.filter (fun z => Qeq_bool z (paid (txn sr)))
                      (map paid rows)) = 1%nat) as Hone by lia.
    assert (95 # 100 < rank_pct_of (map paid rows) (paid (txn sr))) as Hrank.
    { apply rank_above_95_iff; [now rewrite length_map|].
      rewrite Hless, Hone, length_map. lia. }
    apply Qltb_lt in Hrank. rewrite Hrank. reflexivity.
Qed.


(** *** The reports on a scored table *)

Section ReportProofs.

Variable sort_values : forall A : Type, (A -> Q) -> list A -> list A.

(** What pandas documents of [sort_values]: the rows are rearranged. *)
Hypothesis sort_values_perm :
  forall (A : Type) (key : A -> Q) (l : list A),
    Permutation (sort_values A key l) l.

Abbreviation provider_summary := (provider_summary sort_values).
Abbreviation high_risk_providers := (high_risk_providers sort_values).
Abbreviation anomalies := (anomalies sort_values).

Lemma in_provider_summary (df : list ScoredRow) (p : Summary.row) :
  In p (provider_summary df) <->
  exists sr, In sr df
             /\ billing_npi (txn sr) <> Null
             /\ p = summary_row df (billing_npi (txn sr)).
Proof.
  unfold provider_summary. split.
  - intros Hin. apply (Permutation_in _ (sort_values_perm _ _ _)) in Hin.
    apply in_map_iff in Hin as (npi & <- & Hnpi).
    apply (proj1 (in_unique _ _)), filter_In in Hnpi as [Hnpi Hna].
    apply in_map_iff in Hnpi as (sr & <- & Hsr).
    exists sr. split; [exact Hsr|]. split; [|reflexivity].
    intros E. rewrite E in Hna. discriminate.
  - intros (sr & Hsr & Hna & ->).
    apply (Permutation_in _ (Permutation_sym (sort_values_perm _ _ _))).
    apply in_map. apply (proj2 (in_unique _ _)), filter_In.
    split; [now apply (in_map (fun r => billing_npi (txn r)))|].
    now destruct (billing_npi (txn sr)).
Qed.

Lemma provider_scored_self (df : list ScoredRow) (sr : ScoredRow) :
  In sr df -> billing_npi (txn sr) <> Null ->
  In sr (provider_scored (billing_npi (txn sr)) df).
Proof.
  intros Hsr Hna. apply filter_In. split; [exact Hsr|].
  now apply cell_eqb_refl.
Qed.

Lemma score_in_range (g : RandState) (rows : list Row)
  (out : list ScoredRow) (sr : ScoredRow) :
  calc g rows = inr out -> In sr out -> 0 <= fraud_risk_score sr <= 100.
Proof.
  intros H Hin. rewrite (score_sum g rows out sr H Hin).
  destruct (contributions_bounds rows sr) as (Hc & Hv & Hm & Hp). lra.
Qed.

(** X14.  The detailed anomalies report holds exactly the scored rows
    with at least one of the three anomaly flags, each once: the test
    [fraud_risk_score > 75] of the selection never adds a row.  Every
    reported row scores above 15. *)
Theorem anomalies_report_is_flagged_rows (g : RandState) (rows : list Row)
  (out : list ScoredRow) :
  calc g rows = inr out ->
  Permutation (anomalies out)
    (List.filter (fun r => is_cost_anomaly r || is_volume_anomaly r
                           || is_ml_anomaly r) out)
  /\ Forall (fun sr => 15 < fraud_risk_score sr) (anomalies out).
Proof.
  intros H.
  assert (List.filter is_reported out
          = List.filter (fun r => is_cost_anomaly r || is_volume_anomaly r
                                  || is_ml_anomaly r) out) as Hsel.
  { apply filter_ext_in. intros sr Hsr. unfold is_reported.
    destruct (Qltb 75 (fraud_risk_score sr)) eqn:E;
      [|now rewrite orb_false_r].
    apply Qltb_lt in E.
    destruct (proj1 (score_thresholds g rows out sr H Hsr) E)
      as (-> & -> & ->).
    reflexivity. }
  unfold anomalies. rewrite Hsel. split; [apply sort_values_perm|].
  apply List.Forall_forall. intros sr Hsr.
  apply (Permutation_in _ (sort_values_perm _ _ _)) in Hsr.
  apply filter_In in Hsr as [Hsr Hflag].
  rewrite (score_sum g rows out sr H Hsr).
  destruct (row_inv g rows out sr H Hsr) as (_ & _ & _ & Hic & Hiv & _).
  destruct (contributions_bounds rows sr) as (Hc & Hv & Hm & Hp).
  unfold cost_contribution, volume_contribution, ml_contribution in *.
  rewrite Hic, Hiv in Hflag.
  destruct (Qltb 3 (cost_z_score sr)) eqn:Ec.
  - pose proof (capped_contribution _ (proj1 (Qltb_lt _ _) Ec)). lra.
  - destruct (Qltb 3 (claims_per_ben_z_score sr)) eqn:Ev.
    + pose proof (capped_contribution _ (proj1 (Qltb_lt _ _) Ev)). lra.
    + destruct (is_ml_anomaly sr); [lra|discriminate].
Qed.

(** X16.  Every row of the provider summary has a mean score in
    [0, 100] and a total anomaly count between 0 and three times the
    number of the provider's rows; and a provider whose mean exceeds 50,
    the test of the high-risk file, has a row scoring above 50. *)
Theorem provider_summary_rows_bounded (g : RandState) (rows : list Row)
  (out : list ScoredRow) (p : Summary.row) :
  calc g rows = inr out -> In p (provider_summary out) ->
  let n := Z.of_nat (length (provider_scored (Summary.provider_npi p) out)) in
  0 <= Summary.avg_fraud_risk_score p <= 100
  /\ (1 <= n)%Z
  /\ (0 <= Summary.total_anomalies p <= 3 * n)%Z
  /\ (In p (high_risk_providers out) ->
      exists sr, In sr out
                 /\ billing_npi (txn sr) = Summary.provider_npi p
                 /\ 50 < fraud_risk_score sr).
Proof.
  intros H Hp n.
  apply in_provider_summary in Hp as (sr0 & Hsr0 & Hna & ->).
  simpl in *. set (npi := billing_npi (txn sr0)) in *.
  set (grp := provider_scored npi out) in *.
  assert (In sr0 grp) as Hmem by now apply provider_scored_self.
  assert (map fraud_risk_score grp <> []) as Hne.
  { intros E. apply (f_equal (@length Q)) in E. rewrite length_map in E.
    destruct grp; [destruct Hmem|discriminate]. }
  assert (forall sr, In sr grp -> In sr out /\ billing_npi (txn sr) = npi)
    as Hgrp.
  { intros sr Hsr. apply filter_In in Hsr as [Hsr E]. split; [exact Hsr|].
    now apply cell_eqb_eq. }
  split; [|split; [|split]].
  - apply mean_bounds; [exact Hne|].
    apply List.Forall_forall. intros x Hx.
    apply in_map_iff in Hx as (sr & <- & Hsr).
    exact (score_in_range g rows out sr H (proj1 (Hgrp sr Hsr))).
  - unfold n. destruct grp; [destruct Hmem|simpl; lia].
  - pose proof (count_true_bounds (map is_cost_anomaly grp)) as B1.
    pose proof (count_true_bounds (map is_volume_anomaly grp)) as B2.
    pose proof (count_true_bounds (map is_ml_anomaly grp)) as B3.
    rewrite length_map in B1, B2, B3. unfold n. lia.
  - intros Hhigh. apply filter_In in Hhigh as [_ Havg]. simpl in Havg.
    apply Qltb_lt in Havg.
    destruct (mean_gt_exists _ _ Hne Havg) as (x & Hx & Hgt).
    apply in_map_iff in Hx as (sr & <- & Hsr).
    exists sr. destruct (Hgrp sr Hsr) as [Hout Hnpi]. now repeat split.
Qed.


End ReportProofs.

End ScoringFurther.

(** * The further properties on example inputs *)

Lemma insert_desc_perm {A : Type} (key : A -> Q) (x : A) (l : list A) :
  Permutation (insert_desc key x l) (x :: l).
Proof.
  induction l as [|y l IH]; simpl; [reflexivity|].
  destruct (Qle_bool (key y) (key x)); [reflexivity|].
  rewrite IH. apply perm_swap.
Qed.

(** The stand-in sort meets the contract of [sort_values]. *)
Lemma insertion_sort_desc_perm (A : Type) (key : A -> Q) (l : list A) :
  Permutation (insertion_sort_desc A key l) l.
Proof.
  induction l as [|x l IH]; simpl; [reflexivity|].
  unfold insertion_sort_desc in *. simpl.
  rewrite insert_desc_perm. now constructor.
Qed.

Lemma example_run : example_scores 0%nat example_rows = inr example_out.
Proof. run_example. Qed.

Lemma wide_run : example_scores 0%nat wide_rows = inr wide_out.
Proof. run_example. Qed.

Lemma wide_outlier_in : In wide_outlier wide_out.
Proof. apply nth_In. vm_compute. lia. Qed.

Lemma example_read :
  read_chunks [chunk_A; chunk_B] init_detector = inr example_detector.
Proof. run_example. Qed.


Lemma match_Some {A : Type} (o : option A) (P : A -> Prop) (Q : Prop)
  (x : A) :
  o = Some x -> match o with Some a => P a | None => Q end -> P x.
Proof. intros ->. exact (fun H => H). Qed.

(** X1 on the two example chunks. *)
Lemma buffer_rows_are_valid_witness :
  Forall valid_row (all_transactions example_detector).
Proof.
  exact (buffer_rows_are_valid [chunk_A; chunk_B] example_detector
           example_read).
Defined.

(** X2 on the two example chunks. *)
Lemma scored_rows_are_validated_rows_witness :
  map txn example_frame = concat (map chunk_rows [chunk_A; chunk_B])
  /\ Forall (fun sr => valid_row (txn sr)) example_frame.
Proof.
  apply (scored_rows_are_validated_rows sqrt_down nat offset_choice unit
           id_scaler_fit id_scaler_transform unit cut_forest_fit
           cut_forest_predict 0%nat).
  run_example.
Defined.

(** X4 on the two example chunks, for the code b of both. *)
Lemma benchmarks_are_buffer_values_witness :
  exists b,
    procedure_benchmarks example_detector !! Text "b" = Some b
    /\ values_match (same_code (all_transactions example_detector) (Text "b"))
         b.
Proof.
  destruct (procedure_benchmarks example_detector !! Text "b") as [b|] eqn:E;
    [|vm_compute in E; discriminate].
  exists b. split; [reflexivity|].
  exact (match_Some _
           (values_match
              (same_code (all_transactions example_detector) (Text "b")))
           (same_code (all_transactions example_detector) (Text "b") = [])
           b E
           (benchmarks_are_buffer_values [chunk_A; chunk_B]
              example_detector (Text "b") example_read)).
Defined.


(** X6 on the header of the first example chunk. *)
Lemma renamed_header_has_every_field_witness :
  exists i,
    col_index "paid"
      (rename (build_col_map (map upper (columns chunk_A)))
         (map upper (columns chunk_A))) = Some i.
Proof.
  apply (renamed_header_has_every_field _ "paid"%string
           ["TOTAL_PAID"; "PAID"; "AMOUNT"]%string).
  - simpl. tauto.
  - run_example.
Defined.

(** X7 on the chunk without a paid column. *)
Lemma schema_test_iff_missing_field_witness :
  (size (build_col_map (map upper (columns chunk_without_paid)))
   <? length required_cols)%nat = true.
Proof.
  apply (proj2 (schema_test_iff_missing_field chunk_without_paid)).
  exists "paid"%string, ["TOTAL_PAID"; "PAID"; "AMOUNT"]%string.
  split; [simpl; tauto|].
  intros name Hname. vm_compute in Hname. vm_compute.
  intuition (subst; discriminate).
Defined.

(** X9 on the outlier of the example rows. *)
Lemma z_flag_only_above_mean_witness :
  mean (map cost_per_claim
          (same_code example_rows (procedure_code (txn example_outlier))))
  < cost_per_claim (txn example_outlier).
Proof.
  refine (proj2 (proj2 (proj1 (z_flag_only_above_mean sqrt_down nat offset_choice unit
                                 id_scaler_fit id_scaler_transform unit cut_forest_fit
                                 cut_forest_predict 0%nat
                                 example_rows example_out example_outlier
                                 example_run example_outlier_in) _))).
  run_example.
Defined.

(** X10 on the outlier of the example rows. *)
Lemma score_is_sum_of_contributions_witness :
  fraud_risk_score example_outlier
  == cost_contribution example_outlier + volume_contribution example_outlier
     + ml_contribution example_outlier
     + spend_contribution example_rows example_outlier.
Proof.
  exact (score_is_sum_of_contributions sqrt_down nat offset_choice unit
           id_scaler_fit id_scaler_transform unit cut_forest_fit
           cut_forest_predict 0%nat example_rows
           example_out example_outlier example_run example_outlier_in).
Defined.

(** X11 on the outlier among thirty ordinary rows, which scores about 94. *)
Lemma high_score_needs_all_flags_witness :
  (is_cost_anomaly wide_outlier = true /\ is_volume_anomaly wide_outlier = true
   /\ is_ml_anomaly wide_outlier = true)
  /\ spend_flag (map paid wide_rows) (paid (txn wide_outlier)) = true.
Proof.
  destruct (high_score_needs_all_flags sqrt_down nat offset_choice unit
              id_scaler_fit id_scaler_transform unit cut_forest_fit
              cut_forest_predict 0%nat wide_rows wide_out
              wide_outlier wide_run wide_outlier_in) as [H75 H85].
  split; [apply H75|apply H85]; run_example.
Defined.

(** X12 on the example rows: a row of code B against the outlier, which
    is paid more than every other row. *)
Lemma spend_points_monotone_witness :
  spend_contribution example_rows example_small
  <= spend_contribution example_rows example_outlier
  /\ spend_contribution example_rows example_outlier == 15.
Proof.
  destruct (spend_points_monotone sqrt_down nat offset_choice unit
              id_scaler_fit id_scaler_transform unit cut_forest_fit
              cut_forest_predict 0%nat example_rows example_out
              example_outlier example_run example_outlier_in) as [Hmono Hmax].
  split.
  - apply Hmono; [exact example_small_in|]. vm_compute. discriminate.
  - apply Hmax. run_example.
Defined.

(** X13 on a file whose only chunk lacks the paid column. *)
Lemma run_fails_without_valid_rows_witness :
  process_file sqrt_down nat offset_choice unit
    id_scaler_fit id_scaler_transform unit cut_forest_fit
    cut_forest_predict 0%nat [chunk_without_paid] = false.
Proof.
  apply (run_fails_without_valid_rows sqrt_down nat offset_choice unit
           id_scaler_fit id_scaler_transform unit cut_forest_fit
           cut_forest_predict 0%nat).
  run_example.
Defined.

(** X14 on the example rows: one row is reported. *)
Lemma anomalies_report_is_flagged_rows_witness :
  Permutation (anomalies insertion_sort_desc example_out)
    (List.filter (fun r => is_cost_anomaly r || is_volume_anomaly r
                           || is_ml_anomaly r) example_out)
  /\ Forall (fun sr => 15 < fraud_risk_score sr)
       (anomalies insertion_sort_desc example_out).
Proof.
  exact (anomalies_report_is_flagged_rows sqrt_down nat offset_choice unit
           id_scaler_fit id_scaler_transform unit cut_forest_fit
           cut_forest_predict insertion_sort_desc
           insertion_sort_desc_perm 0%nat example_rows example_out
           example_run).
Defined.


(** X16 on the example rows, for provider P2, whose only row is the
    outlier. *)
Lemma provider_summary_rows_bounded_witness :
  0 <= Summary.avg_fraud_risk_score (summary_row example_out (Text "P2"))
  <= 100
  /\ exists sr, In sr example_out
                /\ billing_npi (txn sr) = Text "P2"
                /\ 50 < fraud_risk_score sr.
Proof.
  destruct (provider_summary_rows_bounded sqrt_down nat offset_choice unit
              id_scaler_fit id_scaler_transform unit cut_forest_fit
              cut_forest_predict insertion_sort_desc
              insertion_sort_desc_perm 0%nat example_rows example_out
              (summary_row example_out (Text "P2")) example_run)
    as (Havg & _ & _ & Hhigh).
  - vm_compute. left. reflexivity.
  - split; [exact Havg|]. apply Hhigh. vm_compute. left. reflexivity.
Defined.
